(** * Parallel sweep: the single-drone planner and the multi-drone coordinator

    A shallow embedding of [src/algorithms/parallel_sweep.py].

    - [PossibleActions], [DroneInfo]: the enum and the dataclass.
    - [SingleParallelSweep]: the planner object, [check_if_done] with its
      side effect on the phase written as state passing, and the generator
      [generate_next_movement] as a resumable frame: the object, the local
      [is_going_right] and the [yield] the frame is suspended at.  One
      [resume] is one [next()] of Python: it runs the body from the
      suspension point to the next [yield].
    - Python's floats as binary64 numbers, with the conversion from int,
      [math.sqrt] and [/] rounded as Python rounds them.
    - [MultipleParallelSweep]: the sub-grid computation with its two
      [ValueError]s, the first drone's [DroneInfo] and the per-tick action
      dictionary, a [gmap string Z]; [get_drones_initial_positions] over
      Python's [range]; and [run] against an environment given by its state
      and its two methods, with a bound on the number of ticks. *)

From Stdlib Require Import ZArith Lia Bool SpecFloat.
From stdpp Require Import base tactics option list list_numbers strings pretty gmap.

Local Open Scope Z_scope.

(** ** Python outcomes *)

Inductive exception : Type :=
| ValueError (msg : string)
| ZeroDivisionError (msg : string)
| OverflowError (msg : string).

Inductive outcome (A : Type) : Type :=
| Return (a : A)
| Raise (e : exception).
Arguments Return {A} a.
Arguments Raise {A} e.

(** Sequencing: an exception ends the computation.  With this instance
    stdpp's [x ← m; k] reads as Python's statement order. *)
Global Instance outcome_bind : MBind outcome := λ A B k m,
  match m with
  | Return a => k a
  | Raise e => Raise e
  end.

(** ** Python's [range] and [for] *)

(** [list(range(start, stop, step))]: a zero step is a [ValueError]. *)
Definition py_range (start stop step : Z) : outcome (list Z) :=
  if step =? 0 then Raise (ValueError "range() arg 3 must not be zero")
  else if 0 <? step
  then Return ((fun k => start + k * step)
                 <$> seqZ 0 ((stop - start + step - 1) / step))
  else Return ((fun k => start + k * step)
                 <$> seqZ 0 ((start - stop - step - 1) / - step)).

(** [for x in l: body], threading what the body assigns. *)
Fixpoint for_each {A S : Type} (l : list A) (body : A -> S -> outcome S)
    (acc : S) : outcome S :=
  match l with
  | [] => Return acc
  | x :: l => acc ← body x acc; for_each l body acc
  end.

(** ** Python floats

    A Python float is a binary64 number: [spec_float] with precision 53 and
    exponents up to 1024.  [float(int)], [math.sqrt] and [/] round to the
    nearest float, ties to even, with the Standard Library's [SpecFloat]
    operations; what Python raises instead of returning an infinity or
    dividing by zero is raised here. *)

Definition prec : Z := 53.
Definition emax : Z := 1024.

Definition float : Type := spec_float.

(** The conversion of an int to a float: rounded, and an [OverflowError]
    where the rounded value is out of range. *)
Definition float_of_int (z : Z) : outcome float :=
  match binary_normalize prec emax z 0 false with
  | S754_infinity _ => Raise (OverflowError "int too large to convert to float")
  | x => Return x
  end.

(** [math.sqrt(n)] for an int [n]: the int is converted first. *)
Definition math_sqrt (n : Z) : outcome float :=
  x ← float_of_int n;
  match x with
  | S754_finite true _ _ | S754_infinity true =>
      Raise (ValueError "math domain error")
  | _ => Return (SFsqrt prec emax x)
  end.

(** The divisor is an int or a float. *)
Inductive number : Type :=
| py_int (z : Z)
| py_float (x : float).

Definition is_zero (x : float) : bool :=
  match x with S754_zero _ => true | _ => false end.

(** [a / b] for two ints: the exact quotient rounded once. *)
Definition int_truediv (a b : Z) : outcome float :=
  if b =? 0 then Raise (ZeroDivisionError "division by zero")
  else if a =? 0 then Return (S754_zero (b <? 0))
  else
    let '(q, e, l) := SFdiv_core_binary prec emax (Z.abs a) 0 (Z.abs b) 0 in
    match binary_round_aux prec emax (xorb (a <? 0) (b <? 0)) q e l with
    | S754_infinity _ =>
        Raise (OverflowError "integer division result too large for a float")
    | x => Return x
    end.

(** [a / b] for an int [a].  With a float [b] the int is converted to a
    float before [b] is tested for zero, and the quotient of the two floats
    may be an infinity. *)
Definition truediv (a : Z) (b : number) : outcome float :=
  match b with
  | py_int b => int_truediv a b
  | py_float y =>
      x ← float_of_int a;
      if is_zero y then Raise (ZeroDivisionError "float division by zero")
      else Return (SFdiv prec emax x y)
  end.

(** [x % 1 != 0]: [x] is not a whole number ([x % 1] is nan for an
    infinity and for nan). *)
Definition mod1_nonzero (x : float) : bool :=
  match x with
  | S754_zero _ => false
  | S754_finite _ m e =>
      if 0 <=? e then false else negb (Z.pos m mod 2 ^ (- e) =? 0)
  | _ => true
  end.

(** [int(x)]: truncation towards zero. *)
Definition int_of_float (x : float) : outcome Z :=
  match x with
  | S754_zero _ => Return 0
  | S754_finite s m e =>
      Return (cond_Zopp s (if 0 <=? e then Z.pos m * 2 ^ e
                           else Z.pos m / 2 ^ (- e)))
  | S754_infinity _ =>
      Raise (OverflowError "cannot convert float infinity to integer")
  | S754_nan => Raise (ValueError "cannot convert float NaN to integer")
  end.

(** ** The action vocabulary *)

Inductive PossibleActions : Type := left | right | up | down | search.

Definition value (a : PossibleActions) : Z :=
  match a with
  | left => 0
  | right => 1
  | up => 2
  | down => 3
  | search => 4
  end.

(** The dataclass [DroneInfo]. *)
Module DroneInfo.
Record t : Type := mk {
  grid_size : Z;
  initial_position : Z * Z;
  last_vertice : Z * Z
}.
End DroneInfo.

(** The position a consumer of the action stream tracks: the effect the
    planner itself gives each action ([right] is [drone_y += 1], [down] is
    [drone_x += 1]). *)
Definition move (a : PossibleActions) (p : Z * Z) : Z * Z :=
  match a with
  | left => (p.1, p.2 - 1)
  | right => (p.1, p.2 + 1)
  | up => (p.1 - 1, p.2)
  | down => (p.1 + 1, p.2)
  | search => p
  end.

(** ** class SingleParallelSweep *)

Module SingleParallelSweep.

Record self : Type := mkself {
  grid_size : Z;
  drone_x : Z;
  drone_y : Z;
  last_vertice_x : Z;
  last_vertice_y : Z;
  end_position_x : Z;
  end_position_y : Z;
  is_going_down : bool
}.

Definition set_drone_x (s : self) (v : Z) : self :=
  mkself (grid_size s) v (drone_y s) (last_vertice_x s) (last_vertice_y s)
         (end_position_x s) (end_position_y s) (is_going_down s).

Definition set_drone_y (s : self) (v : Z) : self :=
  mkself (grid_size s) (drone_x s) v (last_vertice_x s) (last_vertice_y s)
         (end_position_x s) (end_position_y s) (is_going_down s).

Definition set_is_going_down (s : self) (v : bool) : self :=
  mkself (grid_size s) (drone_x s) (drone_y s) (last_vertice_x s)
         (last_vertice_y s) (end_position_x s) (end_position_y s) v.

(** [get_end_position], on the three fields it reads. *)
Definition get_end_position (grid_size last_vertice_x last_vertice_y : Z)
  : Z * Z :=
  if grid_size mod 2 =? 0
  then (last_vertice_x, last_vertice_y - grid_size + 1)
  else (last_vertice_x, last_vertice_y).

(** [__init__]: no statement of it raises. *)
Definition __init__ (drone_info : DroneInfo.t) : outcome self :=
  let 'DroneInfo.mk grid_size (drone_x, drone_y)
                   (last_vertice_x, last_vertice_y) := drone_info in
  let '(end_position_x, end_position_y) :=
    get_end_position grid_size last_vertice_x last_vertice_y in
  Return (mkself grid_size drone_x drone_y last_vertice_x last_vertice_y
                 end_position_x end_position_y true).

(** [check_if_done]: the answer and the object with its phase updated. *)
Definition check_if_done (s : self) : bool * self :=
  if is_going_down s then
    let reached_last_vertice :=
      (drone_x s =? end_position_x s) && (drone_y s =? end_position_y s) in
    (reached_last_vertice,
     if reached_last_vertice then set_is_going_down s false else s)
  else
    let reached_initial_position := (drone_x s =? 0) && (drone_y s =? 0) in
    (reached_initial_position,
     if reached_initial_position then set_is_going_down s true else s).

(** Where the generator frame of [generate_next_movement] is suspended.
    Inside the loop the [bool] records which arm of
    [if self.is_going_down] the frame is in. *)
Inductive yield_point : Type :=
| not_started
| turnaround_search                     (* line 84 *)
| loop_search (going_down : bool)       (* lines 92, 102, 113, 123 *)
| loop_horizontal (going_down : bool)   (* lines 93, 103, 114, 124 *)
| loop_vertical (going_down : bool)     (* lines 99, 109, 120, 130 *)
| finished.

Record generator : Type := mkgen {
  this : self;
  is_going_right : bool;
  suspended : yield_point
}.

(** Calling [generate_next_movement()] only creates the frame. *)
Definition generate_next_movement (s : self) : generator :=
  mkgen s true not_started.

(** Top of [while True]: test [self.is_going_down], then [yield search]. *)
Definition loop_top (s : self) (is_going_right : bool)
  : option PossibleActions * generator :=
  (Some search, mkgen s is_going_right (loop_search (is_going_down s))).

Definition vertical (going_down : bool) : PossibleActions :=
  if going_down then down else up.

(** One [next()]: [None] is [StopIteration]. *)
Definition resume (g : generator) : option PossibleActions * generator :=
  let s := this g in
  let is_going_right := is_going_right g in
  match suspended g with
  | not_started =>
      let '(done, s) := check_if_done s in
      if done then (Some search, mkgen s is_going_right turnaround_search)
      else loop_top s true
  | turnaround_search => (None, mkgen s is_going_right finished)
  | finished => (None, g)
  | loop_search going_down =>
      (Some (if is_going_right then right else left),
       mkgen s is_going_right (loop_horizontal going_down))
  | loop_horizontal going_down =>
      if is_going_right then
        let s := set_drone_y s (drone_y s + 1) in
        if drone_y s =? grid_size s - 1 then
          let is_going_right := false in
          let '(done, s) := check_if_done s in
          if negb done
          then (Some (vertical going_down),
                mkgen s is_going_right (loop_vertical going_down))
          else loop_top s is_going_right
        else loop_top s is_going_right
      else
        let s := set_drone_y s (drone_y s - 1) in
        if drone_y s =? 0 then
          let is_going_right := true in
          let '(done, s) := check_if_done s in
          if negb done
          then (Some (vertical going_down),
                mkgen s is_going_right (loop_vertical going_down))
          else loop_top s is_going_right
        else loop_top s is_going_right
  | loop_vertical going_down =>
      let s := set_drone_x s (drone_x s + (if going_down then 1 else -1)) in
      loop_top s is_going_right
  end.

(** [genarate_next_action]: the same stream, each action as its code. *)
Definition genarate_next_action_resume (g : generator)
  : option Z * generator :=
  let '(a, g) := resume g in (value <$> a, g).

(** The frame after [k] calls of [next()]. *)
Fixpoint advance (k : nat) (g : generator) : generator :=
  match k with
  | O => g
  | S k => advance k (resume g).2
  end.

(** The first [k] items of the stream (fewer if it stops). *)
Fixpoint take (k : nat) (g : generator) : list PossibleActions :=
  match k with
  | O => []
  | S k =>
      match resume g with
      | (Some a, g) => a :: take k g
      | (None, _) => []
      end
  end.

(** The stream as a consumer sees it: each action paired with the
    position tracked from the actions before it. *)
Fixpoint trace (k : nat) (p : Z * Z) (g : generator)
  : list ((Z * Z) * PossibleActions) :=
  match k with
  | O => []
  | S k =>
      match resume g with
      | (Some a, g) => (p, a) :: trace k (move a p) g
      | (None, _) => []
      end
  end.

Definition position (g : generator) : Z * Z :=
  (drone_x (this g), drone_y (this g)).

Definition end_position (s : self) : Z * Z :=
  (end_position_x s, end_position_y s).

End SingleParallelSweep.

(** ** class MultipleParallelSweep *)

(** What the coordinator reads of the external environment. *)
Record Env : Type := mkEnv {
  env_grid_size : Z;
  possible_agents : list string
}.

Module MultipleParallelSweep.

Record self : Type := mkself {
  env : Env;
  grid_size : Z;
  n_drones : Z;
  grid_size_each_drone : Z
}.

Definition agents_error : exception :=
  ValueError "The number of agents must be 1 or 2 or a multiple of 4".

Definition grid_error : exception :=
  ValueError "The grid size must be a multiple of the number of agents".

(** [get_each_drone_grid_size], on the two fields it reads ([__init__]
    calls it before the third is set). *)
Definition get_each_drone_grid_size (grid_size n_drones : Z) : outcome Z :=
  if negb ((n_drones =? 1) || (n_drones =? 2)) && negb (n_drones mod 4 =? 0)
  then Raise agents_error
  else
    divisor ← (if n_drones =? 2 then Return (py_int 2)
               else x ← math_sqrt n_drones; Return (py_float x));
    grid_size_each_drone ← truediv grid_size divisor;
    if mod1_nonzero grid_size_each_drone then Raise grid_error
    else int_of_float grid_size_each_drone.

Definition __init__ (env : Env) : outcome self :=
  let grid_size := env_grid_size env in
  let n_drones := Z.of_nat (length (possible_agents env)) in
  grid_size_each_drone ← get_each_drone_grid_size grid_size n_drones;
  Return (mkself env grid_size n_drones grid_size_each_drone).

Definition get_first_drone_info (s : self) : DroneInfo.t :=
  let last_vertice :=
    if negb (n_drones s =? 2)
    then (grid_size_each_drone s - 1, grid_size_each_drone s - 1)
    else (grid_size_each_drone s * 2 - 1, 0) in
  DroneInfo.mk (grid_size_each_drone s) (0, 0) last_vertice.

(** The key [f"drone{i}"]. *)
Definition drone_key (i : Z) : string := "drone" +:+ pretty i.

(** The body of the [for action in ...] loop up to its [yield]: a fresh
    dictionary, filled for [i in range(n_drones)]. *)
Definition actions_of (s : self) (action : Z) : gmap string Z :=
  foldl (fun actions i => <[drone_key i := action]> actions) ∅
        (seqZ 0 (n_drones s)).

(** The generator frame of [generate_next_action]: not yet started, or
    suspended inside the loop over the planner's stream. *)
Inductive generator : Type :=
| fresh
| running (parallel_sweep : SingleParallelSweep.generator)
| finished.

Definition generate_next_action (s : self) : generator := fresh.

Definition pull (s : self) (p : SingleParallelSweep.generator)
  : outcome (option (gmap string Z) * generator) :=
  match SingleParallelSweep.genarate_next_action_resume p with
  | (Some action, p) => Return (Some (actions_of s action), running p)
  | (None, _) => Return (None, finished)
  end.

(** One [next()] of [generate_next_action]. *)
Definition resume (s : self) (g : generator)
  : outcome (option (gmap string Z) * generator) :=
  match g with
  | fresh =>
      parallel_sweep ← SingleParallelSweep.__init__ (get_first_drone_info s);
      pull s (SingleParallelSweep.generate_next_movement parallel_sweep)
  | running p => pull s p
  | finished => Return (None, finished)
  end.

(** The frame after [k] ticks, if no tick raised. *)
Fixpoint advance (s : self) (k : nat) (g : generator) : outcome generator :=
  match k with
  | O => Return g
  | S k => r ← resume s g; advance s k r.2
  end.

(** [get_drones_initial_positions] *)
Definition get_drones_initial_positions (s : self)
  : outcome (list (Z * Z)) :=
  if n_drones s =? 2 then Return [(0, 0); (grid_size_each_drone s, 0)]
  else
    outer ← py_range 0 (grid_size s)
              (if negb (n_drones s =? 2) then grid_size_each_drone s
               else grid_size_each_drone s * 2);
    for_each outer
      (fun i drones_initial_positions =>
         inner ← py_range 0 (grid_size s) (grid_size_each_drone s);
         for_each inner
           (fun j drones_initial_positions =>
              Return (drones_initial_positions ++ [(i, j)]))
           drones_initial_positions)
      [].

(** The first [k] dictionaries of [generate_next_action] (fewer if it
    stops). *)
Fixpoint take (s : self) (k : nat) (g : generator)
  : outcome (list (gmap string Z)) :=
  match k with
  | O => Return []
  | S k =>
      r ← resume s g;
      match r.1 with
      | Some actions => l ← take s k r.2; Return (actions :: l)
      | None => Return []
      end
  end.

(** How a call of [run] ends: with the value it returns, with an
    exception, with [info] read before any tick has assigned it, or, in the
    model only, with the ticks allowed used up. *)
Inductive run_result : Type :=
| returned (found : bool)
| raised (e : exception)
| info_unbound
| out_of_fuel.

(** [any(done.values())] *)
Definition any_done (done : gmap string bool) : bool :=
  existsb (fun kv => kv.2) (map_to_list done).

(** [return info["Found"]], with [info] as the loop left it. *)
Definition return_found (info : option bool) : run_result :=
  match info with
  | Some found => returned found
  | None => info_unbound
  end.

(** [run], against an environment given by its state and its two methods:
    [reset] takes the initial positions, [step] takes the dictionary of
    actions and gives [done] and [info["Found"]]. *)
Section Run.

Variable world : Type.
Variable reset : list (Z * Z) -> world -> world.
Variable step : gmap string Z -> world -> (gmap string bool * bool) * world.

(** The [for actions in self.generate_next_action()] loop, for at most
    [fuel] ticks. *)
Fixpoint run_loop (fuel : nat) (s : self) (g : generator) (w : world)
    (info : option bool) : run_result * world :=
  match fuel with
  | O => (out_of_fuel, w)
  | S fuel =>
      match resume s g with
      | Raise e => (raised e, w)
      | Return (None, _) => (return_found info, w)
      | Return (Some actions, g) =>
          let '((done, found), w) := step actions w in
          if any_done done then (return_found (Some found), w)
          else run_loop fuel s g w (Some found)
      end
  end.

Definition run (fuel : nat) (s : self) (w : world) : run_result * world :=
  match get_drones_initial_positions s with
  | Raise e => (raised e, w)
  | Return drones_positions =>
      run_loop fuel s (generate_next_action s) (reset drones_positions w) None
  end.

(** The loop after [k] ticks none of which was done: the frame of the
    generator, the environment and [info]. *)
Fixpoint played (k : nat) (s : self) (g : generator) (w : world)
    (info : option bool) : option (generator * world * option bool) :=
  match k with
  | O => Some (g, w, info)
  | S k =>
      match resume s g with
      | Return (Some actions, g) =>
          let '((done, found), w) := step actions w in
          if any_done done then None else played k s g w (Some found)
      | _ => None
      end
  end.

End Run.

End MultipleParallelSweep.

(** * Properties *)

(** ** The consumer's position and the planner's own *)

Import SingleParallelSweep.

(** The position implied by the actions yielded so far: the planner's own
    position plus the move it has yielded and not yet applied (the fields
    are updated after the [yield], when the frame is resumed). *)
Definition tracked (g : generator) : Z * Z :=
  match suspended g with
  | loop_horizontal _ =>
      (drone_x (this g),
       drone_y (this g) + (if is_going_right g then 1 else -1))
  | loop_vertical going_down =>
      (drone_x (this g) + (if going_down then 1 else -1), drone_y (this g))
  | _ => position g
  end.

(** The position a consumer holds after [k] actions, starting from [p]. *)
Definition consumed (k : nat) (p : Z * Z) (g : generator) : Z * Z :=
  foldl (fun p a => move a p) p (take k g).

(** ** The boustrophedon invariant

    A planner sweeping [rows] rows of [cols >= 2] columns, whose end
    position is the cell the sweep of the last row ends in.  The square
    sub-grid is [rows = cols]; the tall strip of the two-drone case is
    [rows = 2 * cols]. *)

Definition end_col (cols rows : Z) : Z :=
  if rows mod 2 =? 0 then 0 else cols - 1.

(** Row [x] is swept to the right on the way down iff [x] is even, on the
    way up iff [x] is odd. *)
Definition row_right (going_down : bool) (x : Z) : bool :=
  x mod 2 =? (if going_down then 0 else 1).

(** Cells of the current row already left behind. *)
Definition offset (cols : Z) (going_right : bool) (y : Z) : Z :=
  if going_right then y else cols - 1 - y.

(** Actions of one vertical sweep: [rows - 1] rows with their vertical
    step, and the last row without. *)
Definition half (cols rows : Z) : Z :=
  (rows - 1) * (2 * cols - 1) + 2 * (cols - 1).

(** The place of a frame in the cycle: the number of actions yielded since
    the first [search] of the current down-sweep. *)
Definition clock (cols rows : Z) (g : generator) : Z :=
  let s := this g in
  (if is_going_down s then drone_x s * (2 * cols - 1)
   else half cols rows + (rows - 1 - drone_x s) * (2 * cols - 1))
  + match suspended g with
    | loop_search _ => 2 * offset cols (is_going_right g) (drone_y s)
    | loop_horizontal _ => 2 * offset cols (is_going_right g) (drone_y s) + 1
    | loop_vertical _ => 2 * cols - 2
    | _ => 0
    end.

Definition sweeping (cols rows : Z) (g : generator) : Prop :=
  let s := this g in
  grid_size s = cols /\
  end_position_x s = rows - 1 /\
  end_position_y s = end_col cols rows /\
  0 <= drone_x s < rows /\
  0 <= drone_y s < cols /\
  match suspended g with
  | loop_search b | loop_horizontal b =>
      b = is_going_down s /\
      is_going_right g = row_right (is_going_down s) (drone_x s) /\
      offset cols (is_going_right g) (drone_y s) <= cols - 2
  | loop_vertical b =>
      b = is_going_down s /\
      is_going_right g = negb (row_right (is_going_down s) (drone_x s)) /\
      drone_y s = (if is_going_right g then 0 else cols - 1) /\
      (if is_going_down s then drone_x s < rows - 1 else 0 < drone_x s)
  | _ => False
  end.

(** The configuration of a single agent on an [n×n] grid. *)
Definition square (n : Z) : DroneInfo.t :=
  DroneInfo.mk n (0, 0) (n - 1, n - 1).

(** The object [__init__] leaves behind, field by field. *)
Definition built (d : DroneInfo.t) : self :=
  let e := get_end_position (DroneInfo.grid_size d) (DroneInfo.last_vertice d).1
                            (DroneInfo.last_vertice d).2 in
  mkself (DroneInfo.grid_size d) (DroneInfo.initial_position d).1 (DroneInfo.initial_position d).2
         (DroneInfo.last_vertice d).1 (DroneInfo.last_vertice d).2 e.1 e.2 true.

(** The frame of a sweep that is about to yield the horizontal move out
    of cell [(x, y)] (it has just yielded the [search] there), and the
    frame that has just yielded that move. *)
Definition search_frame (cols rows lx ly : Z) (going_down : bool)
    (x y : Z) : generator :=
  mkgen (mkself cols x y lx ly (rows - 1) (end_col cols rows) going_down)
        (row_right going_down x) (loop_search going_down).

Definition horizontal_frame (cols rows lx ly : Z) (going_down : bool)
    (x y : Z) : generator :=
  mkgen (mkself cols x y lx ly (rows - 1) (end_col cols rows) going_down)
        (row_right going_down x) (loop_horizontal going_down).

(** A planner on the way down whose end position lies left of the grid:
    it sweeps row after row and has no row to stop in.  Its place in the
    descent is [clock cols 1], which does not read the number of rows on the
    way down. *)
Definition descending (cols : Z) (g : generator) : Prop :=
  let s := this g in
  grid_size s = cols /\
  end_position_y s < 0 /\
  is_going_down s = true /\
  0 <= drone_x s /\
  0 <= drone_y s < cols /\
  match suspended g with
  | loop_search b | loop_horizontal b =>
      b = true /\
      is_going_right g = row_right true (drone_x s) /\
      offset cols (is_going_right g) (drone_y s) <= cols - 2
  | loop_vertical b =>
      b = true /\
      is_going_right g = negb (row_right true (drone_x s)) /\
      drone_y s = (if is_going_right g then 0 else cols - 1)
  | _ => False
  end.

(** An environment for concrete runs: its state counts the steps, and it
    reports [drone0] done, and the target found, at its third step. *)
Definition counting_reset (positions : list (Z * Z)) (w : nat) : nat := O.

Definition counting_step (actions : gmap string Z) (w : nat)
  : (gmap string bool * bool) * nat :=
  (({["drone0" := Nat.eqb w 2]}, Nat.eqb w 2), S w).

(** The frame is inside [while True]. *)
Definition in_loop (g : generator) : Prop :=
  match suspended g with
  | loop_search _ | loop_horizontal _ | loop_vertical _ => True
  | _ => False
  end.

(** The number of binary digits of a positive integer. *)
Definition digits (v : Z) : Z := Z.log2 v + 1.

(** The float that is the whole number [v], for [0 < v < 2^53]: its 53-bit
    mantissa and its exponent. *)
Definition canon (s : bool) (v : Z) : float :=
  S754_finite s (Z.to_pos (v * 2 ^ (53 - digits v))) (digits v - 53).

(** The least magnitude of an int that is too large for a float: half an
    ulp above the largest float. *)
Definition max_int_to_float : Z := 2 ^ 1024 - 2 ^ 970.

Ltac split_tests :=
  repeat match goal with
    | |- context [Z.eqb ?a ?b] => destruct (Z.eqb_spec a b)
    | H : context [Z.eqb ?a ?b] |- _ => destruct (Z.eqb_spec a b)
    end.

(** Parities are tested with [mod 2]: let [lia] see through them. *)
Ltac parity_lia := Z.to_euclidean_division_equations; lia.

Ltac sweep_step :=
  simpl in *; split_tests; simpl in *; try discriminate;
  repeat split; try discriminate; try reflexivity; try lia;
  try (exfalso; parity_lia).

Ltac clock_case :=
  solve [ lia | f_equal; lia | exfalso; parity_lia | parity_lia
        | f_equal; parity_lia ].

Lemma advance_add (a b : nat) (g : generator) :
  advance (a + b) g = advance b (advance a g).
Proof.
  revert g. induction a as [|a IH]; intros g; simpl; [reflexivity | apply IH].
Qed.

Lemma advance_succ (k : nat) (g : generator) :
  advance (S k) g = (resume (advance k g)).2.
Proof.
  replace (S k) with (k + 1)%nat by lia. rewrite advance_add. reflexivity.
Qed.

(** A resumed frame that yields moves the tracked position by the action
    it yields. *)
Lemma tracked_resume (g g' : generator) (a : PossibleActions) :
  resume g = (Some a, g') -> tracked g' = move a (tracked g).
Proof.
  destruct g as [[gs x y lx ly ex ey ph] igr lbl].
  unfold resume, tracked, position, check_if_done, loop_top; simpl.
  destruct lbl as [| |b|b|b|], igr, ph; simpl; split_tests; simpl;
    intros H; inversion H; subst; simpl; try reflexivity;
    destruct b; reflexivity.
Qed.

(** Once the stream has stopped the frame stays where it is. *)
Lemma resume_stop (g g' : generator) :
  resume g = (None, g') ->
  tracked g' = tracked g /\ position g' = position g /\
  forall k, tracked (advance k g') = tracked g' /\
            position (advance k g') = position g'.
Proof.
  destruct g as [[gs x y lx ly ex ey ph] igr lbl].
  unfold resume, check_if_done, loop_top; simpl.
  destruct lbl as [| |b|b|b|], igr, ph; simpl; split_tests; simpl;
    intros H; inversion H; subst; (split; [reflexivity|split; [reflexivity|]]);
    intros k; induction k as [|k IH]; simpl; auto.
Qed.

Lemma consumed_tracked (k : nat) (g : generator) :
  consumed k (tracked g) g = tracked (advance k g).
Proof.
  unfold consumed. revert g. induction k as [|k IH]; intros g; simpl.
  - reflexivity.
  - destruct (resume g) as [[a|] g'] eqn:E; simpl.
    + rewrite <- (tracked_resume _ _ _ E). apply IH.
    + destruct (resume_stop _ _ E) as (Ht & _ & Hk).
      destruct (Hk k) as [-> _]. symmetry. exact Ht.
Qed.

(** ** The invariant is kept *)

Section Sweep.

Variables cols rows : Z.
Hypothesis cols_ge : 2 <= cols.
Hypothesis rows_ge : 1 <= rows.

Local Abbreviation Sweeping := (sweeping cols rows).
Local Abbreviation Clock := (clock cols rows).
Local Abbreviation Half := (half cols rows).

Lemma half_pos : 2 <= Half.
Proof using cols_ge rows_ge. unfold half. nia. Qed.

Lemma sweeping_clock (g : generator) :
  Sweeping g -> 0 <= Clock g < 2 * Half.
Proof using cols_ge rows_ge.
  destruct g as [[gs x y lx ly ex ey ph] igr lbl].
  unfold sweeping, clock, offset, half; simpl.
  intros (_ & _ & _ & Hx & Hy & H).
  assert (0 <= x * (2 * cols - 1) <= (rows - 1) * (2 * cols - 1)) by nia.
  assert (0 <= (rows - 1 - x) * (2 * cols - 1)
          <= (rows - 1) * (2 * cols - 1)) by nia.
  destruct lbl as [| |b|b|b|]; try contradiction;
    destruct ph, igr; try nia.
Qed.

Lemma sweeping_phase (g : generator) :
  Sweeping g -> is_going_down (this g) = (Clock g <? Half).
Proof using cols_ge rows_ge.
  destruct g as [[gs x y lx ly ex ey ph] igr lbl].
  unfold sweeping, clock, offset, half; simpl.
  intros (_ & _ & _ & Hx & Hy & H).
  assert (0 <= x * (2 * cols - 1) <= (rows - 1) * (2 * cols - 1)) by nia.
  assert (0 <= (rows - 1 - x) * (2 * cols - 1)
          <= (rows - 1) * (2 * cols - 1)) by nia.
  destruct lbl as [| |b|b|b|]; try contradiction;
    destruct ph, igr; symmetry;
    first [apply Z.ltb_lt | apply Z.ltb_ge]; nia.
Qed.

(** One [next()] keeps the invariant, yields an action and advances the
    clock by one, wrapping at the end of the up-sweep. *)
Lemma sweeping_resume (g : generator) :
  Sweeping g ->
  Sweeping (resume g).2 /\
  (resume g).1 <> None /\
  (Clock (resume g).2 = Clock g + 1 \/
   Clock g + 1 = 2 * Half /\ Clock (resume g).2 = 0).
Proof using cols_ge rows_ge.
  destruct g as [[gs x y lx ly ex ey ph] igr lbl].
  unfold sweeping, clock, offset, half, row_right, end_col,
    resume, check_if_done, loop_top; simpl.
  intros (-> & -> & -> & Hx & Hy & H).
  destruct lbl as [| |b|b|b|]; try contradiction.
  - destruct H as (-> & Hr & Ho). destruct ph, igr; sweep_step.
  - destruct H as (-> & Hr & Ho). destruct ph, igr; sweep_step.
  - destruct H as (-> & Hr & Hc & Hv). destruct ph, igr; sweep_step.
Qed.

(** The first [next()] of a planner that starts at the origin on the way
    down: it yields [search] and enters the loop at clock 0. *)
Lemma sweeping_first (s : self) :
  grid_size s = cols ->
  end_position s = (rows - 1, end_col cols rows) ->
  drone_x s = 0 -> drone_y s = 0 -> is_going_down s = true ->
  let r := resume (generate_next_movement s) in
  r.1 = Some search /\ Sweeping r.2 /\ Clock r.2 = 0.
Proof using cols_ge rows_ge.
  destruct s as [gs x y lx ly ex ey ph].
  unfold end_position, sweeping, clock, offset, row_right, end_col,
    generate_next_movement, resume, check_if_done, loop_top; simpl.
  intros -> [= -> ->] -> -> ->. split_tests; sweep_step.
Qed.

Lemma sweeping_advance (g : generator) (k : nat) :
  Sweeping g ->
  Sweeping (advance k g) /\
  Clock (advance k g) = (Clock g + Z.of_nat k) mod (2 * Half).
Proof using cols_ge rows_ge.
  intros Hg. pose proof half_pos as Hh.
  induction k as [|k [IHs IHc]].
  - simpl. split; [assumption|].
    rewrite Z.add_0_r, Z.mod_small; [reflexivity | apply sweeping_clock, Hg].
  - rewrite advance_succ.
    destruct (sweeping_resume _ IHs) as (Hs & _ & Hc).
    split; [assumption|].
    replace (Clock g + Z.of_nat (S k)) with (Clock g + Z.of_nat k + 1) by lia.
    rewrite <- Zplus_mod_idemp_l, <- IHc.
    pose proof (sweeping_clock _ Hs) as Hb.
    destruct Hc as [Hc | [Hw Hc]]; rewrite Hc.
    + rewrite Z.mod_small; lia.
    + rewrite Hw, Z_mod_same_full. reflexivity.
Qed.

(** Where in the cycle the consumer stands on the end position, and
    where on the origin: on arriving (the move has just been yielded) and
    while the [search] at that cell is yielded. *)
Lemma sweeping_at_end (g : generator) :
  Sweeping g ->
  tracked g = (rows - 1, end_col cols rows) <->
  Clock g = Half - 1 \/ Clock g = Half.
Proof using cols_ge rows_ge.
  destruct g as [[gs x y lx ly ex ey ph] igr lbl].
  unfold sweeping, clock, offset, half, row_right, end_col, tracked,
    position; simpl.
  intros (_ & _ & _ & Hx & Hy & H).
  assert (x = rows - 1 \/ (x + 1) * (2 * cols - 1)
                          <= (rows - 1) * (2 * cols - 1)) by nia.
  destruct lbl as [| |b|b|b|]; try contradiction.
  - destruct H as (-> & Hr & Ho).
    destruct ph, igr; split_tests; try discriminate;
      rewrite pair_equal_spec; split; intros Hc; clock_case.
  - destruct H as (-> & Hr & Ho).
    destruct ph, igr; split_tests; try discriminate;
      rewrite pair_equal_spec; split; intros Hc; clock_case.
  - destruct H as (-> & Hr & -> & Hv).
    destruct ph, igr; simpl in Hr; split_tests; try discriminate;
      rewrite pair_equal_spec; split; intros Hc; clock_case.
Qed.

Lemma sweeping_at_origin (g : generator) :
  Sweeping g ->
  tracked g = (0, 0) <-> Clock g = 2 * Half - 1 \/ Clock g = 0.
Proof using cols_ge rows_ge.
  destruct g as [[gs x y lx ly ex ey ph] igr lbl].
  unfold sweeping, clock, offset, half, row_right, end_col, tracked,
    position; simpl.
  intros (_ & _ & _ & Hx & Hy & H).
  assert (x = 0 \/ 2 * cols - 1 <= x * (2 * cols - 1)) by nia.
  assert (x * (2 * cols - 1) <= (rows - 1) * (2 * cols - 1)) by nia.
  destruct lbl as [| |b|b|b|]; try contradiction.
  - destruct H as (-> & Hr & Ho).
    destruct ph, igr; split_tests; try discriminate;
      rewrite pair_equal_spec; split; intros Hc; clock_case.
  - destruct H as (-> & Hr & Ho).
    destruct ph, igr; split_tests; try discriminate;
      rewrite pair_equal_spec; split; intros Hc; clock_case.
  - destruct H as (-> & Hr & -> & Hv).
    destruct ph, igr; simpl in Hr; split_tests; try discriminate;
      rewrite pair_equal_spec; split; intros Hc; clock_case.
Qed.

(** The planner's own position lags the consumer's by the move just
    yielded: it is the end position, or the origin, while the [search]
    there and the move that leaves are yielded. *)
Lemma sweeping_own_end (g : generator) :
  Sweeping g ->
  position g = (rows - 1, end_col cols rows) <->
  Clock g = Half \/ Clock g = Half + 1.
Proof using cols_ge rows_ge.
  destruct g as [[gs x y lx ly ex ey ph] igr lbl].
  unfold sweeping, clock, offset, half, row_right, end_col, position; simpl.
  intros (_ & _ & _ & Hx & Hy & H).
  assert (x = rows - 1 \/ (x + 1) * (2 * cols - 1)
                          <= (rows - 1) * (2 * cols - 1)) by nia.
  destruct lbl as [| |b|b|b|]; try contradiction.
  - destruct H as (-> & Hr & Ho).
    destruct ph, igr; split_tests; try discriminate;
      rewrite pair_equal_spec; split; intros Hc; clock_case.
  - destruct H as (-> & Hr & Ho).
    destruct ph, igr; split_tests; try discriminate;
      rewrite pair_equal_spec; split; intros Hc; clock_case.
  - destruct H as (-> & Hr & -> & Hv).
    destruct ph, igr; simpl in Hr; split_tests; try discriminate;
      rewrite pair_equal_spec; split; intros Hc; clock_case.
Qed.

Lemma sweeping_own_origin (g : generator) :
  Sweeping g ->
  position g = (0, 0) <-> Clock g = 0 \/ Clock g = 1.
Proof using cols_ge rows_ge.
  destruct g as [[gs x y lx ly ex ey ph] igr lbl].
  unfold sweeping, clock, offset, half, row_right, end_col, position; simpl.
  intros (_ & _ & _ & Hx & Hy & H).
  assert (x = 0 \/ 2 * cols - 1 <= x * (2 * cols - 1)) by nia.
  assert (x * (2 * cols - 1) <= (rows - 1) * (2 * cols - 1)) by nia.
  destruct lbl as [| |b|b|b|]; try contradiction.
  - destruct H as (-> & Hr & Ho).
    destruct ph, igr; split_tests; try discriminate;
      rewrite pair_equal_spec; split; intros Hc; clock_case.
  - destruct H as (-> & Hr & Ho).
    destruct ph, igr; split_tests; try discriminate;
      rewrite pair_equal_spec; split; intros Hc; clock_case.
  - destruct H as (-> & Hr & -> & Hv).
    destruct ph, igr; simpl in Hr; split_tests; try discriminate;
      rewrite pair_equal_spec; split; intros Hc; clock_case.
Qed.

Lemma sweeping_position (g : generator) :
  Sweeping g ->
  0 <= drone_x (this g) < rows /\ 0 <= drone_y (this g) < cols.
Proof. unfold sweeping. tauto. Qed.

Lemma sweeping_take (g : generator) (k : nat) :
  Sweeping g -> length (take k g) = k.
Proof using cols_ge rows_ge.
  revert g. induction k as [|k IH]; intros g Hg; simpl; [reflexivity|].
  destruct (sweeping_resume _ Hg) as (Hs & Hy & _).
  destruct (resume g) as [[a|] g']; simpl in *; [|congruence].
  f_equal. apply IH, Hs.
Qed.

(** The whole run of a planner that starts at the origin: after the
    first [search] the frame is in the loop for good, and the clock counts
    the actions modulo the length of a down-sweep and an up-sweep. *)
Lemma sweeping_run (s : self) (k : nat) :
  grid_size s = cols ->
  end_position s = (rows - 1, end_col cols rows) ->
  drone_x s = 0 -> drone_y s = 0 -> is_going_down s = true ->
  let g := generate_next_movement s in
  Sweeping (advance (S k) g) /\
  Clock (advance (S k) g) = Z.of_nat k mod (2 * Half) /\
  length (take (S k) g) = S k.
Proof using cols_ge rows_ge.
  intros Hg He Hx Hy Hd g.
  destruct (sweeping_first s Hg He Hx Hy Hd) as (Ha & Hs & Hc).
  fold g in Ha, Hs, Hc. simpl.
  destruct (sweeping_advance _ k Hs) as [Hs' Hc'].
  split; [assumption|]. split.
  - rewrite Hc', Hc. reflexivity.
  - destruct (resume g) as [[a|] g']; simpl in *; [|discriminate].
    f_equal. apply sweeping_take, Hs.
Qed.

End Sweep.

(** ** The one-cell grid *)

(** On a [1×1] grid the planner is at its turnaround before it starts: it
    yields one [search] and stops, and never moves. *)
Lemma single_cell (s : self) (k : nat) :
  drone_x s = end_position_x s -> drone_y s = end_position_y s ->
  is_going_down s = true ->
  take (S k) (generate_next_movement s) = [search] /\
  position (advance k (generate_next_movement s)) = (drone_x s, drone_y s).
Proof.
  destruct s as [gs x y lx ly ex ey ph]; simpl. intros <- <- ->.
  assert (E1 : resume (generate_next_movement
                         (mkself gs x y lx ly x y true))
               = (Some search,
                  mkgen (mkself gs x y lx ly x y false) true
                        turnaround_search)).
  { unfold resume, check_if_done; simpl. rewrite !Z.eqb_refl. reflexivity. }
  split.
  - simpl take. rewrite E1. destruct k; reflexivity.
  - destruct k as [|k]; [reflexivity|].
    simpl advance. rewrite E1. simpl.
    destruct k as [|k]; [reflexivity|].
    simpl advance.
    match goal with |- position (advance k ?g) = _ =>
      assert (Hs : resume g = (None, g)) by reflexivity;
      destruct (resume_stop _ _ Hs) as (_ & _ & Hk);
      destruct (Hk k) as [_ ->] end.
    reflexivity.
Qed.

(** ** Construction *)

Lemma init_built (d : DroneInfo.t) :
  SingleParallelSweep.__init__ d = Return (built d).
Proof.
  destruct d as [gs [x y] [lx ly]]. unfold SingleParallelSweep.__init__, built.
  simpl. destruct (get_end_position gs lx ly). reflexivity.
Qed.

(** ** Floats that are whole numbers

    An integer of magnitude below [2^53] is a float, and the conversion,
    the division and the square root are exact on such floats when their
    results are whole. *)

Lemma digits2_size (p : positive) : digits2_pos p = Pos.size p.
Proof. induction p; simpl; congruence. Qed.

(** [SpecFloat] counts the digits as [digits] does. *)
Lemma Zdigits2_log2 (z : Z) : 0 < z -> Zdigits2 z = digits z.
Proof.
  destruct z as [|p|p]; try lia. intros _. unfold digits. simpl Zdigits2.
  rewrite digits2_size. destruct p; simpl; lia.
Qed.

Lemma digits_shift (v k : Z) :
  0 < v -> 0 <= k -> digits (v * 2 ^ k) = digits v + k.
Proof. intros Hv Hk. unfold digits. rewrite Z.log2_mul_pow2 by lia. lia. Qed.

Lemma digits_bound (v : Z) : 0 < v -> v < 2 ^ 53 -> 1 <= digits v <= 53.
Proof.
  intros Hv Hb. unfold digits. pose proof (Z.log2_nonneg v).
  assert (Z.log2 v < 53) by (apply Z.log2_lt_pow2; lia). lia.
Qed.

Lemma shr_1_even (w : Z) :
  0 < w ->
  shr_1 (Build_shr_record (2 * w) false false)
  = Build_shr_record w false false.
Proof. destruct w; try lia. reflexivity. Qed.

Lemma pow2_xO (p : positive) : 2 ^ Z.pos p~0 = 2 ^ Z.pos p * 2 ^ Z.pos p.
Proof. rewrite <- Z.pow_add_r by lia. f_equal. lia. Qed.

Lemma pow2_xI (p : positive) : 2 ^ Z.pos p~1 = 2 * (2 ^ Z.pos p * 2 ^ Z.pos p).
Proof.
  rewrite <- Z.pow_add_r by lia.
  replace (Z.pos p~1) with (1 + (Z.pos p + Z.pos p)) by lia.
  rewrite Z.pow_add_r by lia. reflexivity.
Qed.

(** Shifting right the zeros a left shift has put in loses nothing. *)
Lemma iter_shr_exact (p : positive) (w : Z) :
  0 < w ->
  SpecFloat.iter_pos shr_1 p (Build_shr_record (w * 2 ^ Zpos p) false false)
  = Build_shr_record w false false.
Proof.
  revert w. induction p as [p IH|p IH|]; intros w Hw; cbn [SpecFloat.iter_pos].
  - pose proof (Z.pow_pos_nonneg 2 (Z.pos p) ltac:(lia) ltac:(lia)).
    rewrite pow2_xI.
    replace (w * (2 * (2 ^ Z.pos p * 2 ^ Z.pos p)))
      with (2 * (w * 2 ^ Z.pos p * 2 ^ Z.pos p)) by lia.
    rewrite shr_1_even by nia. rewrite IH by nia. by apply IH.
  - pose proof (Z.pow_pos_nonneg 2 (Z.pos p) ltac:(lia) ltac:(lia)).
    rewrite pow2_xO, Z.mul_assoc. rewrite IH by nia. by apply IH.
  - rewrite Z.mul_comm. by apply shr_1_even.
Qed.

Lemma shr_exact (w n e : Z) :
  0 < w -> 0 <= n ->
  shr (Build_shr_record (w * 2 ^ n) false false) e n
  = (Build_shr_record w false false, e + n).
Proof.
  intros Hw Hn. destruct n as [|p|p]; try lia.
  - simpl. by rewrite Z.mul_1_r, Z.add_0_r.
  - unfold shr. by rewrite iter_shr_exact.
Qed.

(** Rounding a value that has at most 53 significant bits changes nothing. *)
Lemma round_exact (s : bool) (v k : Z) :
  0 < v < 2 ^ 53 -> 53 - digits v <= k ->
  binary_round_aux prec emax s (v * 2 ^ k) (- k) loc_Exact = canon s v.
Proof.
  intros Hv Hk. pose proof (digits_bound v ltac:(lia) ltac:(lia)) as Hd.
  assert (Hk0 : 0 <= k) by lia.
  assert (Hp : 0 < 2 ^ (53 - digits v)) by (apply Z.pow_pos_nonneg; lia).
  assert (Hp' : 0 < 2 ^ k) by (apply Z.pow_pos_nonneg; lia).
  set (w := v * 2 ^ (53 - digits v)).
  assert (Hw : 0 < w) by (unfold w; nia).
  assert (Hdw : digits w = 53) by (unfold w; rewrite digits_shift; lia).
  unfold binary_round_aux, shr_fexp.
  rewrite Zdigits2_log2 by nia. rewrite digits_shift by lia.
  replace (fexp prec emax (digits v + k + - k) - - k)
    with (digits v - 53 + k) by (unfold fexp, emin, prec, emax; lia).
  cbn [shr_record_of_loc].
  replace (v * 2 ^ k) with (w * 2 ^ (digits v - 53 + k)).
  2:{ unfold w. rewrite <- Z.mul_assoc, <- Z.pow_add_r by lia.
      do 2 f_equal. lia. }
  rewrite shr_exact by lia.
  cbn [shr_m loc_of_shr_record round_nearest_even].
  rewrite Zdigits2_log2, Hdw by lia.
  replace (fexp prec emax (53 + (- k + (digits v - 53 + k)))
           - (- k + (digits v - 53 + k)))
    with 0 by (unfold fexp, emin, prec, emax; lia).
  cbn [shr_record_of_loc shr shr_m].
  destruct w as [|pw|pw] eqn:Ew; try lia.
  replace (- k + (digits v - 53 + k) <=? emax - prec) with true
    by (symmetry; apply Z.leb_le; unfold emax, prec; lia).
  unfold canon. fold w. rewrite Ew. simpl Z.to_pos. f_equal. lia.
Qed.

Lemma iter_xO (m d : positive) :
  Z.pos (Pos.iter xO m d) = Z.pos m * 2 ^ Z.pos d.
Proof.
  induction d as [|d IH] using Pos.peano_ind.
  - simpl. lia.
  - rewrite Pos.iter_succ, Pos2Z.inj_succ, Z.pow_succ_r by lia.
    rewrite Pos2Z.inj_xO, IH. lia.
Qed.

(** An integer below [2^53] is converted exactly. *)
Lemma binary_round_exact (s : bool) (m : positive) :
  Z.pos m < 2 ^ 53 ->
  binary_round prec emax s m 0 = canon s (Z.pos m).
Proof.
  intros Hb. pose proof (digits_bound (Z.pos m) ltac:(lia) Hb) as Hd.
  unfold binary_round, shl_align.
  change (Z.pos (digits2_pos m)) with (Zdigits2 (Z.pos m)).
  rewrite Zdigits2_log2 by lia.
  replace (fexp prec emax (digits (Z.pos m) + 0) - 0)
    with (digits (Z.pos m) - 53) by (unfold fexp, emin, prec, emax; lia).
  destruct (digits (Z.pos m) - 53) as [|d|d] eqn:Ed; try lia.
  - rewrite <- (round_exact s (Z.pos m) 0) by lia.
    by rewrite Z.mul_1_r.
  - rewrite iter_xO.
    replace (fexp prec emax (digits (Z.pos m) + 0)) with (- Z.pos d)
      by (unfold fexp, emin, prec, emax; lia).
    apply round_exact; lia.
Qed.

Lemma float_of_int_exact (z : Z) :
  z <> 0 -> Z.abs z < 2 ^ 53 ->
  float_of_int z = Return (canon (z <? 0) (Z.abs z)).
Proof.
  intros Hz Hb. unfold float_of_int, binary_normalize.
  destruct z as [|m|m]; try congruence.
  - rewrite binary_round_exact by (simpl in Hb; lia). reflexivity.
  - rewrite binary_round_exact by (simpl in Hb; lia). reflexivity.
Qed.

Lemma canon_finite (s : bool) (v : Z) :
  0 < v < 2 ^ 53 ->
  exists m, canon s v = S754_finite s m (digits v - 53) /\
            Z.pos m = v * 2 ^ (53 - digits v) /\ digits (Z.pos m) = 53.
Proof.
  intros Hv. pose proof (digits_bound v ltac:(lia) ltac:(lia)) as Hd.
  assert (Hp : 0 < 2 ^ (53 - digits v)) by (apply Z.pow_pos_nonneg; lia).
  eexists. split; [reflexivity|].
  rewrite Z2Pos.id by nia. split; [reflexivity|].
  rewrite digits_shift; lia.
Qed.

Lemma div_eucl_exact (q b : Z) : 0 < b -> Z.div_eucl (q * b) b = (q, 0).
Proof.
  intros Hb. pose proof (Z.div_mul q b ltac:(lia)) as Hq.
  pose proof (Z.mod_mul q b ltac:(lia)) as Hr.
  unfold Z.div, Z.modulo in *. destruct (Z.div_eucl (q * b) b). congruence.
Qed.

Lemma new_location_exact (m : Z) : new_location m 0 = loc_Exact.
Proof. unfold new_location. by destruct (Z.even m). Qed.

Lemma digits_mul (q d : Z) :
  0 < q -> 0 < d -> digits (q * d) <= digits q + digits d.
Proof.
  intros Hq Hd. unfold digits.
  pose proof (Z.log2_mul_above q d ltac:(lia) ltac:(lia)). lia.
Qed.

(** The quotient of two floats that are whole numbers, when it is whole. *)
Lemma SFdiv_exact (sa sd : bool) (q d : Z) :
  0 < q -> 0 < d -> q * d < 2 ^ 53 ->
  SFdiv prec emax (canon sa (q * d)) (canon sd d) = canon (xorb sa sd) q.
Proof.
  intros Hq Hd Hb.
  assert (Ha : 0 < q * d < 2 ^ 53) by nia.
  assert (Hd' : 0 < d < 2 ^ 53) by nia.
  assert (Hq' : 0 < q < 2 ^ 53) by nia.
  destruct (canon_finite sa _ Ha) as (ma & -> & Ema & Dma).
  destruct (canon_finite sd _ Hd') as (md & -> & Emd & Dmd).
  pose proof (digits_bound _ (proj1 Ha) (proj2 Ha)) as Ba.
  pose proof (digits_bound _ (proj1 Hd') (proj2 Hd')) as Bd.
  pose proof (digits_bound _ (proj1 Hq') (proj2 Hq')) as Bq.
  pose proof (digits_mul q d Hq Hd) as Hm.
  set (da := digits (q * d)) in *. set (dd := digits d) in *.
  unfold SFdiv, SFdiv_core_binary.
  rewrite !Zdigits2_log2, Dma, Dmd by lia.
  replace (Z.min (fexp prec emax (53 + (da - 53) - (53 + (dd - 53))))
                 (da - 53 - (dd - 53)))
    with (da - dd - 53) by (unfold fexp, emin, prec, emax; lia).
  replace (da - 53 - (dd - 53) - (da - dd - 53)) with 53 by lia.
  rewrite Z.shiftl_mul_pow2 by lia.
  replace (Z.pos ma * 2 ^ 53) with (q * 2 ^ (53 - da + dd) * Z.pos md).
  2:{ rewrite Ema, Emd.
      replace (q * 2 ^ (53 - da + dd) * (d * 2 ^ (53 - dd)))
        with (q * d * (2 ^ (53 - da + dd) * 2 ^ (53 - dd))) by lia.
      rewrite <- Z.pow_add_r by lia.
      replace (q * d * 2 ^ (53 - da) * 2 ^ 53)
        with (q * d * (2 ^ (53 - da) * 2 ^ 53)) by lia.
      rewrite <- Z.pow_add_r by lia. do 2 f_equal. lia. }
  rewrite div_eucl_exact by lia. rewrite new_location_exact.
  replace (da - dd - 53) with (- (53 - da + dd)) by lia.
  apply round_exact; lia.
Qed.

(** The quotient of two ints, when it is whole. *)
Lemma int_truediv_exact (q b : Z) :
  0 < q -> 0 < b -> q * b < 2 ^ 53 ->
  int_truediv (q * b) b = Return (canon false q).
Proof.
  intros Hq Hb Hbd.
  assert (Ha : 0 < q * b < 2 ^ 53) by nia.
  pose proof (digits_bound _ (proj1 Ha) (proj2 Ha)) as Ba.
  pose proof (digits_bound b ltac:(lia) ltac:(nia)) as Bb.
  pose proof (digits_bound q ltac:(lia) ltac:(nia)) as Bq.
  pose proof (digits_mul q b Hq Hb) as Hm.
  unfold int_truediv.
  destruct (Z.eqb_spec b 0); [lia|]. destruct (Z.eqb_spec (q * b) 0); [lia|].
  rewrite !Z.abs_eq by lia.
  unfold SFdiv_core_binary. rewrite !Zdigits2_log2 by lia.
  set (da := digits (q * b)) in *. set (db := digits b) in *.
  replace (Z.min (fexp prec emax (da + 0 - (db + 0))) (0 - 0))
    with (da - db - 53) by (unfold fexp, emin, prec, emax; lia).
  replace (0 - 0 - (da - db - 53)) with (53 - da + db) by lia.
  destruct (53 - da + db) as [|k|k] eqn:Ek; try lia.
  rewrite Z.shiftl_mul_pow2 by lia.
  replace (q * b * 2 ^ Z.pos k) with (q * 2 ^ Z.pos k * b) by lia.
  rewrite div_eucl_exact by lia. rewrite new_location_exact.
  replace (da - db - 53) with (- Z.pos k) by lia.
  replace (xorb (q * b <? 0) (b <? 0)) with false.
  2:{ destruct (Z.ltb_spec (q * b) 0); [lia|].
      destruct (Z.ltb_spec b 0); [lia | reflexivity]. }
  rewrite round_exact by lia. reflexivity.
Qed.

(** A whole float passes the [% 1] test and [int] gives its value. *)
Lemma canon_whole (s : bool) (q : Z) :
  0 < q < 2 ^ 53 ->
  mod1_nonzero (canon s q) = false /\
  int_of_float (canon s q) = Return (cond_Zopp s q).
Proof.
  intros Hq. destruct (canon_finite s q Hq) as (m & -> & Em & Dm).
  pose proof (digits_bound q ltac:(lia) ltac:(lia)) as Bq.
  unfold mod1_nonzero, int_of_float.
  destruct (Z.leb_spec 0 (digits q - 53)) as [H|H].
  - split; [reflexivity|]. do 2 f_equal.
    assert (E : digits q = 53) by lia. rewrite Em, E. simpl. lia.
  - replace (- (digits q - 53)) with (53 - digits q) by lia.
    assert (0 < 2 ^ (53 - digits q)) by (apply Z.pow_pos_nonneg; lia).
    rewrite Em, Z.mod_mul, Z.div_mul by lia. split; reflexivity.
Qed.


Lemma sqrtrem_square (a : Z) : 0 <= a -> Z.sqrtrem (a * a) = (a, 0).
Proof.
  intros Ha. pose proof (Z.sqrtrem_spec (a * a) ltac:(nia)) as Hs.
  pose proof (Z.sqrtrem_sqrt (a * a)) as Hq.
  rewrite Z.sqrt_square in Hq by assumption.
  destruct (Z.sqrtrem (a * a)) as [s r]. simpl in Hq. subst s.
  f_equal. lia.
Qed.

Lemma digits_square (d : Z) :
  0 < d -> (digits (d * d) + 1) / 2 = digits d.
Proof.
  intros Hd. unfold digits.
  pose proof (Z.log2_mul_above d d ltac:(lia) ltac:(lia)).
  pose proof (Z.log2_mul_below d d Hd Hd).
  Z.to_euclidean_division_equations. lia.
Qed.

(** The root of a float that is a perfect square. *)
Lemma SFsqrt_exact (d : Z) :
  0 < d -> d * d < 2 ^ 53 ->
  SFsqrt prec emax (canon false (d * d)) = canon false d.
Proof.
  intros Hd Hb.
  assert (Hn : 0 < d * d < 2 ^ 53) by nia.
  assert (Hd' : 0 < d < 2 ^ 53) by nia.
  destruct (canon_finite false _ Hn) as (m & -> & Em & Dm).
  pose proof (digits_bound _ (proj1 Hn) (proj2 Hn)) as Bn.
  pose proof (digits_bound _ (proj1 Hd') (proj2 Hd')) as Bd.
  pose proof (digits_square d Hd) as Hh.
  set (dn := digits (d * d)) in *. set (dd := digits d) in *.
  unfold SFsqrt, SFsqrt_core_binary.
  rewrite Zdigits2_log2, Dm by lia. rewrite !Z.div2_div.
  replace (Z.min (fexp prec emax ((53 + (dn - 53) + 1) / 2)) ((dn - 53) / 2))
    with (dd - 53).
  2:{ unfold fexp, emin, prec, emax.
      replace (53 + (dn - 53) + 1) with (dn + 1) by lia. rewrite Hh.
      assert ((dn - 53) / 2 = dd - 27)
        by (revert Hh; Z.to_euclidean_division_equations; lia).
      lia. }
  assert (Hs : 0 < dn - 53 - 2 * (dd - 53))
    by (revert Hh; Z.to_euclidean_division_equations; lia).
  destruct (dn - 53 - 2 * (dd - 53)) as [|s|s] eqn:Es; try lia.
  rewrite Z.shiftl_mul_pow2 by lia.
  replace (Z.pos m * 2 ^ Z.pos s)
    with (d * 2 ^ (53 - dd) * (d * 2 ^ (53 - dd))).
  2:{ assert (Hp : 2 ^ (53 - dn) * 2 ^ Z.pos s
                   = 2 ^ (53 - dd) * 2 ^ (53 - dd))
        by (rewrite <- !Z.pow_add_r by lia; f_equal; lia).
      rewrite Em.
      replace (d * d * 2 ^ (53 - dn) * 2 ^ Z.pos s)
        with (d * d * (2 ^ (53 - dn) * 2 ^ Z.pos s)) by ring.
      rewrite Hp. ring. }
  assert (0 < 2 ^ (53 - dd)) by (apply Z.pow_pos_nonneg; lia).
  rewrite sqrtrem_square by nia. cbn [Z.eqb].
  replace (dd - 53) with (- (53 - dd)) by lia.
  apply round_exact; lia.
Qed.

Lemma math_sqrt_exact (d : Z) :
  0 < d -> d * d < 2 ^ 53 -> math_sqrt (d * d) = Return (canon false d).
Proof.
  intros Hd Hb. unfold math_sqrt.
  rewrite float_of_int_exact by lia. cbn [mbind outcome_bind].
  replace (d * d <? 0) with false by (symmetry; apply Z.ltb_ge; lia).
  rewrite Z.abs_eq by lia.
  destruct (canon_finite false (d * d) ltac:(nia)) as (m & Ec & _).
  rewrite Ec. cbv iota. rewrite <- Ec. f_equal. by apply SFsqrt_exact.
Qed.

Lemma truediv_float_exact (q d : Z) :
  0 < q -> 0 < d -> q * d < 2 ^ 53 ->
  truediv (q * d) (py_float (canon false d)) = Return (canon false q).
Proof.
  intros Hq Hd Hb. cbn [truediv].
  rewrite float_of_int_exact by lia. cbn [mbind outcome_bind].
  replace (q * d <? 0) with false by (symmetry; apply Z.ltb_ge; lia).
  rewrite Z.abs_eq by lia.
  replace (is_zero (canon false d)) with false by reflexivity.
  by rewrite SFdiv_exact.
Qed.

(** ** The conversion of large integers

    An integer of at least 54 bits is shifted right to 53 bits and rounded;
    the conversion overflows from [max_int_to_float] on. *)

(** [SpecFloat]'s iteration is iteration. *)
Lemma iter_pos_nat {A : Type} (f : A -> A) (p : positive) (x : A) :
  SpecFloat.iter_pos f p x = Nat.iter (Pos.to_nat p) f x.
Proof.
  revert x. induction p as [p IH|p IH|]; intros x; cbn [SpecFloat.iter_pos].
  - rewrite !IH, Pos2Nat.inj_xI, <- Nat.iter_add, <- Nat.iter_succ_r.
    f_equal. lia.
  - rewrite !IH, Pos2Nat.inj_xO, <- Nat.iter_add. f_equal. lia.
  - reflexivity.
Qed.

(** One shift halves the mantissa, keeps the bit shifted out as the round
    bit and collects the earlier ones in the sticky bit. *)
Lemma shr_1_nonneg (m : Z) (r s : bool) :
  0 <= m ->
  shr_1 (Build_shr_record m r s) = Build_shr_record (m / 2) (Z.odd m) (r || s).
Proof.
  intros Hm. destruct m as [|[p|p|]|]; try lia; cbn [shr_1]; f_equal.
  - apply (Z.div_unique _ _ _ 1); lia.
  - apply (Z.div_unique _ _ _ 0); lia.
Qed.

Lemma iter_shr_1 (k : nat) (m : Z) (r s : bool) :
  0 <= m ->
  exists st,
    Nat.iter (S k) shr_1 (Build_shr_record m r s)
    = Build_shr_record (m / 2 ^ Z.of_nat k / 2) (Z.odd (m / 2 ^ Z.of_nat k)) st.
Proof.
  intros Hm. induction k as [|k [st IH]].
  - exists (r || s). cbn [Nat.iter]. rewrite shr_1_nonneg by lia.
    by rewrite Z.pow_0_r, Z.div_1_r.
  - rewrite Nat.iter_succ, IH.
    assert (Hp : 0 < 2 ^ Z.of_nat k) by (apply Z.pow_pos_nonneg; lia).
    assert (E : m / 2 ^ Z.of_nat (S k) = m / 2 ^ Z.of_nat k / 2).
    { rewrite Nat2Z.inj_succ, Z.pow_succ_r, Z.mul_comm by lia.
      rewrite Z.div_div; [reflexivity | lia | lia]. }
    eexists. rewrite shr_1_nonneg.
    + rewrite E. reflexivity.
    + apply Z.div_pos; [apply Z.div_pos|]; lia.
Qed.

Lemma shr_large (m e n : Z) :
  0 <= m -> 0 < n ->
  exists st,
    shr (Build_shr_record m false false) e n
    = (Build_shr_record (m / 2 ^ (n - 1) / 2) (Z.odd (m / 2 ^ (n - 1))) st,
       e + n).
Proof.
  intros Hm Hn. destruct n as [|p|p]; try lia.
  unfold shr. rewrite iter_pos_nat.
  destruct (Pos.to_nat p) as [|k] eqn:Ek; [lia|].
  destruct (iter_shr_1 k m false false Hm) as [st ->].
  exists st. replace (Z.pos p - 1) with (Z.of_nat k) by lia. reflexivity.
Qed.

Lemma digits_spec (v : Z) : 0 < v -> 2 ^ (digits v - 1) <= v < 2 ^ digits v.
Proof.
  intros Hv. unfold digits. pose proof (Z.log2_spec v Hv) as H.
  replace (Z.log2 v + 1 - 1) with (Z.log2 v) by lia.
  replace (Z.log2 v + 1) with (Z.succ (Z.log2 v)) by lia. exact H.
Qed.

Lemma digits_unique (v d : Z) :
  0 < d -> 2 ^ (d - 1) <= v < 2 ^ d -> digits v = d.
Proof.
  intros Hd Hv. unfold digits.
  rewrite (Z.log2_unique v (d - 1)); [lia | lia |].
  replace (Z.succ (d - 1)) with d by lia. exact Hv.
Qed.

Lemma round_nearest_even_bounds (m : Z) (l : location) :
  m <= round_nearest_even m l <= m + 1.
Proof. destruct l as [|[]]; simpl; try destruct (Z.even m); lia. Qed.

(** The conversion of an integer [p] of [d >= 54] bits: the 53 leading
    bits [h / 2], rounded by the next bit and the sticky bit, with
    exponent [d - 53]; a carry out of the rounding gives [2^52] with the
    exponent one higher. *)
Lemma binary_round_large (s : bool) (p : positive) :
  2 ^ 53 <= Z.pos p ->
  exists st,
    binary_round prec emax s p 0 =
    let n := digits (Z.pos p) - 53 in
    let h := Z.pos p / 2 ^ (n - 1) in
    let m2 := round_nearest_even (h / 2)
                (loc_of_shr_record (Build_shr_record (h / 2) (Z.odd h) st)) in
    if m2 <? 2 ^ 53
    then (if n <=? emax - prec then S754_finite s (Z.to_pos m2) n
          else S754_infinity s)
    else (if n + 1 <=? emax - prec
          then S754_finite s (Z.to_pos (2 ^ 52)) (n + 1)
          else S754_infinity s).
Proof.
  intros Hp.
  pose proof (digits_spec (Z.pos p) ltac:(lia)) as Hd.
  assert (Hd54 : 54 <= digits (Z.pos p)).
  { unfold digits. assert (53 <= Z.log2 (Z.pos p)); [|lia].
    apply Z.log2_le_pow2; lia. }
  unfold binary_round, shl_align.
  change (Z.pos (digits2_pos p)) with (Zdigits2 (Z.pos p)).
  rewrite Zdigits2_log2 by lia.
  set (n := digits (Z.pos p) - 53).
  replace (fexp prec emax (digits (Z.pos p) + 0) - 0) with n
    by (unfold fexp, emin, prec, emax; lia).
  assert (Hn : 0 < n) by lia.
  destruct n as [|n'|n'] eqn:En; try lia. rewrite <- En in *. clear n' En.
  unfold binary_round_aux, shr_fexp.
  rewrite Zdigits2_log2 by lia.
  replace (fexp prec emax (digits (Z.pos p) + 0) - 0) with n
    by (unfold fexp, emin, prec, emax; lia).
  cbn [shr_record_of_loc].
  destruct (shr_large (Z.pos p) 0 n ltac:(lia) Hn) as [st ->].
  exists st. cbn zeta. cbn [shr_m].
  set (h := Z.pos p / 2 ^ (n - 1)).
  assert (Hpw : 0 < 2 ^ (n - 1)) by (apply Z.pow_pos_nonneg; lia).
  assert (Hh : 2 ^ 53 <= h < 2 ^ 54).
  { split.
    - apply Z.div_le_lower_bound; [lia|].
      rewrite <- Z.pow_add_r by lia.
      replace (n - 1 + 53) with (digits (Z.pos p) - 1) by lia. lia.
    - apply Z.div_lt_upper_bound; [lia|].
      rewrite <- Z.pow_add_r by lia.
      replace (n - 1 + 54) with (digits (Z.pos p)) by lia. lia. }
  assert (Hm1 : 2 ^ 52 <= h / 2 < 2 ^ 53)
    by (Z.to_euclidean_division_equations; lia).
  set (l := loc_of_shr_record _). clearbody l.
  pose proof (round_nearest_even_bounds (h / 2) l) as Hm2.
  set (m2 := round_nearest_even (h / 2) l) in *. clearbody m2.
  destruct (Z.ltb_spec m2 (2 ^ 53)) as [Hlt|Hge].
  - rewrite Zdigits2_log2 by lia.
    rewrite (digits_unique m2 53) by lia.
    replace (fexp prec emax (53 + (0 + n)) - (0 + n)) with 0
      by (unfold fexp, emin, prec, emax; lia).
    cbn [shr shr_record_of_loc shr_m].
    destruct m2 as [|q|q]; try lia. reflexivity.
  - assert (m2 = 2 ^ 53) as -> by lia.
    change (Zdigits2 (2 ^ 53)) with 54.
    replace (fexp prec emax (54 + (0 + n)) - (0 + n)) with 1
      by (unfold fexp, emin, prec, emax; lia).
    reflexivity.
Qed.

(** Below [max_int_to_float] the conversion gives a finite float. *)
Lemma binary_round_finite (s : bool) (p : positive) :
  Z.pos p < max_int_to_float ->
  exists m e, binary_round prec emax s p 0 = S754_finite s m e.
Proof.
  unfold max_int_to_float. intros Hb.
  destruct (Z.lt_ge_cases (Z.pos p) (2 ^ 53)) as [Hs|Hl].
  - rewrite binary_round_exact by assumption. unfold canon. eauto.
  - destruct (binary_round_large s p Hl) as [st ->]. cbn zeta.
    pose proof (digits_spec (Z.pos p) ltac:(lia)) as Hd.
    assert (Hd54 : 54 <= digits (Z.pos p)).
    { unfold digits. assert (53 <= Z.log2 (Z.pos p)); [|lia].
      apply Z.log2_le_pow2; lia. }
    assert (Hd1024 : digits (Z.pos p) <= 1024).
    { unfold digits. assert (Z.log2 (Z.pos p) < 1024); [|lia].
      apply Z.log2_lt_pow2; lia. }
    set (n := digits (Z.pos p) - 53) in *.
    set (h := Z.pos p / 2 ^ (n - 1)).
    replace (n <=? emax - prec) with true
      by (symmetry; apply Z.leb_le; unfold emax, prec; lia).
    destruct (Z.ltb_spec
                (round_nearest_even (h / 2)
                   (loc_of_shr_record (Build_shr_record (h / 2) (Z.odd h) st)))
                (2 ^ 53)) as [Hlt|Hge]; [eauto|].
    destruct (Z.leb_spec (n + 1) (emax - prec)) as [Hle|Hgt]; [eauto|].
    exfalso. assert (En : n - 1 = 970) by (unfold emax, prec in Hgt; lia).
    assert (Hh : h < 2 ^ 54 - 1).
    { unfold h. rewrite En. apply Z.div_lt_upper_bound; lia. }
    destruct (Z.odd h) eqn:Eo.
    + rewrite Z.odd_spec in Eo. destruct Eo as [k Ek].
      pose proof (round_nearest_even_bounds (h / 2)
        (loc_of_shr_record (Build_shr_record (h / 2) true st))).
      assert (h / 2 = k) by (Z.to_euclidean_division_equations; lia).
      lia.
    + assert (h / 2 < 2 ^ 53) by (Z.to_euclidean_division_equations; lia).
      destruct st; cbn [loc_of_shr_record round_nearest_even] in Hge; lia.
Qed.

(** From [max_int_to_float] on it rounds out of range. *)
Lemma binary_round_overflow (s : bool) (p : positive) :
  max_int_to_float <= Z.pos p ->
  binary_round prec emax s p 0 = S754_infinity s.
Proof.
  unfold max_int_to_float. intros Hb.
  destruct (binary_round_large s p ltac:(lia)) as [st ->]. cbn zeta.
  pose proof (digits_spec (Z.pos p) ltac:(lia)) as Hd.
  assert (Hd1024 : 1024 <= digits (Z.pos p)).
  { unfold digits. assert (1023 <= Z.log2 (Z.pos p)); [|lia].
    apply Z.log2_le_pow2; lia. }
  set (n := digits (Z.pos p) - 53) in *.
  set (h := Z.pos p / 2 ^ (n - 1)).
  replace (n + 1 <=? emax - prec) with false
    by (symmetry; apply Z.leb_gt; unfold emax, prec; lia).
  destruct (Z.leb_spec n (emax - prec)) as [Hle|Hgt].
  2:{ by destruct (_ <? _). }
  assert (En : n - 1 = 970) by (unfold emax, prec in Hle; lia).
  assert (Ed : digits (Z.pos p) = 1024) by lia. rewrite Ed in Hd.
  assert (Hh : h = 2 ^ 54 - 1).
  { assert (2 ^ 54 - 1 <= h < 2 ^ 54); [|lia]. unfold h. rewrite En. split.
    - apply Z.div_le_lower_bound; lia.
    - apply Z.div_lt_upper_bound; lia. }
  rewrite Hh. by destruct st.
Qed.

Lemma float_of_int_finite (z : Z) :
  Z.abs z < max_int_to_float -> exists x, float_of_int z = Return x.
Proof.
  intros Hb. unfold float_of_int, binary_normalize.
  destruct z as [|p|p]; [by eexists| |].
  - destruct (binary_round_finite false p Hb) as (m & e & ->). by eexists.
  - destruct (binary_round_finite true p Hb) as (m & e & ->). by eexists.
Qed.

Lemma float_of_int_overflow (z : Z) :
  max_int_to_float <= Z.abs z ->
  float_of_int z = Raise (OverflowError "int too large to convert to float").
Proof.
  intros Hb. unfold float_of_int, binary_normalize.
  destruct z as [|p|p].
  - unfold max_int_to_float in Hb. simpl in Hb. lia.
  - by rewrite binary_round_overflow.
  - by rewrite binary_round_overflow.
Qed.

(** * The claims *)

(** ** Phase alternation *)

(** C2.  A single-agent planner on an [n×n] grid, [n >= 2], starts in the
    down phase and never stops.  Let [D = (n-1)(2n+1)] be the number of
    actions of one sweep and [t = k mod 2D] the place of action [k+1] in the
    cycle.  The phase the planner is in when it has produced action [k+1]
    is up exactly when [t >= D].  The consumer's tracked position is the end
    position exactly after actions [D] and [D+1] of the cycle and the
    origin exactly after actions [2D] and [2D+1]; the planner's own
    position, which takes each move when the frame is resumed, is the end
    position exactly at [t = D] and [t = D+1] and the origin at [t = 0] and
    [t = 1].  So the phase becomes up in the very [next()] in which the
    planner arrives at the end position, the one after the consumer has
    arrived; it stays up until the origin is reached and becomes down in
    the same way; and so in every cycle. *)
Theorem phase_alternation (n : Z) (k : nat) :
  2 <= n ->
  exists p, SingleParallelSweep.__init__ (square n) = Return p /\
    let g := generate_next_movement p in
    let D := (n - 1) * (2 * n + 1) in
    let t := Z.of_nat k mod (2 * D) in
    is_going_down p = true /\
    length (take (S k) g) = S k /\
    is_going_down (this (advance (S k) g)) = (t <? D) /\
    (consumed (S k) (0, 0) g = end_position p <-> t = D - 1 \/ t = D) /\
    (consumed (S k) (0, 0) g = (0, 0) <-> t = 2 * D - 1 \/ t = 0) /\
    (position (advance (S k) g) = end_position p <-> t = D \/ t = D + 1) /\
    (position (advance (S k) g) = (0, 0) <-> t = 0 \/ t = 1).
Proof.
  intros Hn. exists (built (square n)). split; [apply init_built|].
  assert (Hr : 1 <= n) by lia.
  replace ((n - 1) * (2 * n + 1)) with (half n n) by (unfold half; lia).
  set (p := built (square n)).
  assert (Hp : grid_size p = n /\ end_position p = (n - 1, end_col n n) /\
               drone_x p = 0 /\ drone_y p = 0 /\ is_going_down p = true).
  { unfold p, built, square, get_end_position, end_col, end_position.
    simpl. destruct (n mod 2 =? 0); simpl; repeat split; f_equal; lia. }
  destruct Hp as (Hg & He & Hx & Hy & Hd). clearbody p.
  destruct (sweeping_run n n Hn Hr p k Hg He Hx Hy Hd) as (Hs & Hc & Hl).
  cbv zeta. rewrite <- Hc, He.
  assert (Ht : consumed (S k) (0, 0) (generate_next_movement p)
               = tracked (advance (S k) (generate_next_movement p))).
  { rewrite <- consumed_tracked. unfold tracked, position; simpl.
    rewrite Hx, Hy. reflexivity. }
  rewrite Ht.
  split; [assumption|]. split; [assumption|].
  split; [|split; [|split; [|split]]].
  - apply (sweeping_phase n n Hn Hr), Hs.
  - apply (sweeping_at_end n n Hn Hr), Hs.
  - apply (sweeping_at_origin n n Hn Hr), Hs.
  - apply (sweeping_own_end n n Hn Hr), Hs.
  - apply (sweeping_own_origin n n Hn Hr), Hs.
Qed.

(** ** The position stays in the region swept *)

(** C3, as amended.  At every point of the stream of the reference planner
    the coordinator builds for a sub-grid of size [s], the position [(x, y)]
    satisfies [0 <= x < s] and [0 <= y < s] for every agent count but 2 and
    [s >= 1], and [0 <= x < 2 * s] and [0 <= y < s], the tall strip, for
    two agents on a sub-grid of odd size [s >= 3].  Nothing is stated for
    two agents with [s] even or [s = 1]. *)
Theorem position_in_region (c : MultipleParallelSweep.self) (k : nat) :
  1 <= MultipleParallelSweep.grid_size_each_drone c ->
  (MultipleParallelSweep.n_drones c = 2 ->
   MultipleParallelSweep.grid_size_each_drone c mod 2 = 1 /\
   3 <= MultipleParallelSweep.grid_size_each_drone c) ->
  exists p,
    SingleParallelSweep.__init__
      (MultipleParallelSweep.get_first_drone_info c) = Return p /\
    let xy := position (advance k (generate_next_movement p)) in
    0 <= xy.2 < grid_size p /\
    0 <= xy.1 < (if MultipleParallelSweep.n_drones c =? 2
                 then 2 * grid_size p else grid_size p).
Proof.
  intros Hs H2. eexists. split; [apply init_built|].
  destruct c as [env gs n s].
  unfold MultipleParallelSweep.get_first_drone_info.
  cbn [MultipleParallelSweep.grid_size_each_drone
       MultipleParallelSweep.n_drones] in *.
  set (p := built _).
  destruct k as [|k].
  { unfold p, built; simpl. destruct (n =? 2); simpl; lia. }
  destruct (Z.eqb_spec n 2) as [E|E]; simpl in p.
  - destruct (H2 E) as [Hodd H3].
    assert (Hp : grid_size p = s /\
                 end_position p = (2 * s - 1, end_col s (2 * s)) /\
                 drone_x p = 0 /\ drone_y p = 0 /\ is_going_down p = true).
    { unfold p, built, get_end_position, end_col, end_position; simpl.
      split_tests; simpl; repeat split; try (f_equal; lia);
        exfalso; parity_lia. }
    destruct Hp as (Hg & He & Hx & Hy & Hd). clearbody p.
    assert (Hc : 2 <= s) by lia. assert (Hr : 1 <= 2 * s) by lia.
    destruct (sweeping_run s (2 * s) Hc Hr p k Hg He Hx Hy Hd) as (Hsw & _).
    apply sweeping_position in Hsw. unfold position. cbn [fst snd].
    rewrite Hg. lia.
  - destruct (Z.eq_dec s 1) as [->|Hne].
    + destruct (single_cell p (S k)) as [_ ->]; unfold p, built; simpl; lia.
    + assert (Hp : grid_size p = s /\
                   end_position p = (s - 1, end_col s s) /\
                   drone_x p = 0 /\ drone_y p = 0 /\ is_going_down p = true).
      { unfold p, built, get_end_position, end_col, end_position; simpl.
        destruct (s mod 2 =? 0); simpl; repeat split; f_equal; lia. }
      destruct Hp as (Hg & He & Hx & Hy & Hd). clearbody p.
      assert (Hc : 2 <= s) by lia.
      destruct (sweeping_run s s Hc Hs p k Hg He Hx Hy Hd) as (Hsw & _).
      apply sweeping_position in Hsw. unfold position. cbn [fst snd].
    rewrite Hg. lia.
Qed.

(** ** The partition *)

(** C4, as amended.  For an agent count that is 1, 2 or a multiple of 4
    and below [2^53], with [divisor] 2 for two agents and otherwise the
    exact integer square root of the count, and a positive grid size below
    [2^53] that the divisor divides, the sub-grid size is computed without
    an exception, is positive, and times the divisor gives the grid size
    back. *)
Theorem sub_grid_size (grid_size n_drones divisor : Z) :
  n_drones = 1 \/ n_drones = 2 \/ n_drones mod 4 = 0 ->
  (if n_drones =? 2 then divisor = 2
   else 0 <= divisor /\ divisor * divisor = n_drones) ->
  0 < grid_size < 2 ^ 53 ->
  n_drones < 2 ^ 53 ->
  (divisor | grid_size) ->
  exists s,
    MultipleParallelSweep.get_each_drone_grid_size grid_size n_drones
    = Return s /\
    0 < s /\ s * divisor = grid_size.
Proof.
  intros Hn Hd Hg Hnb [q ->].
  unfold MultipleParallelSweep.get_each_drone_grid_size.
  replace (negb ((n_drones =? 1) || (n_drones =? 2))
           && negb (n_drones mod 4 =? 0)) with false.
  2:{ destruct (Z.eqb_spec n_drones 1), (Z.eqb_spec n_drones 2),
        (Z.eqb_spec (n_drones mod 4) 0); simpl; try reflexivity; lia. }
  destruct (Z.eqb_spec n_drones 2) as [E|E].
  - subst divisor. cbn [mbind outcome_bind truediv].
    assert (0 < q) by lia.
    rewrite int_truediv_exact by lia. cbn [mbind outcome_bind].
    destruct (canon_whole false q ltac:(lia)) as [-> ->].
    exists q. repeat split; lia.
  - destruct Hd as [Hd0 Hdd].
    assert (0 < divisor) by nia. assert (0 < q) by nia.
    rewrite <- Hdd, math_sqrt_exact by lia. cbn [mbind outcome_bind].
    rewrite truediv_float_exact by lia. cbn [mbind outcome_bind].
    destruct (canon_whole false q ltac:(nia)) as [-> ->].
    exists q. repeat split; simpl; lia.
Qed.

(** C5.  An agent count that is not 1, not 2 and not a multiple of 4 makes
    the construction of the coordinator fail with the agent-count
    [ValueError], whatever the grid size; no sub-grid size is computed. *)
Theorem invalid_agent_count (env : Env) :
  Z.of_nat (length (possible_agents env)) <> 1 ->
  Z.of_nat (length (possible_agents env)) <> 2 ->
  Z.of_nat (length (possible_agents env)) mod 4 <> 0 ->
  MultipleParallelSweep.__init__ env
  = Raise MultipleParallelSweep.agents_error /\
  MultipleParallelSweep.get_each_drone_grid_size
    (env_grid_size env) (Z.of_nat (length (possible_agents env)))
  = Raise MultipleParallelSweep.agents_error.
Proof.
  intros H1 H2 H4.
  unfold MultipleParallelSweep.__init__,
    MultipleParallelSweep.get_each_drone_grid_size.
  set (n := Z.of_nat (length (possible_agents env))) in *.
  destruct (Z.eqb_spec n 1); [contradiction|].
  destruct (Z.eqb_spec n 2); [contradiction|].
  destruct (Z.eqb_spec (n mod 4) 0); [contradiction|].
  split; reflexivity.
Qed.

(** C10, as amended.  With no agents the agent-count check passes, since
    [0 % 4 == 0], and the divisor is [math.sqrt(0)], which is zero.  The
    grid size is converted to a float before the divisor is tested for
    zero: a grid size below [2^1024 - 2^970] in magnitude is converted and
    the division raises [ZeroDivisionError]; a larger one raises
    [OverflowError] in the conversion.  Either way the construction fails,
    and not with the agent-count error. *)
Theorem zero_agents_divide_by_zero (grid_size : Z) :
  math_sqrt 0 = Return (S754_zero false) /\
  MultipleParallelSweep.get_each_drone_grid_size grid_size 0
  = (if Z.abs grid_size <? max_int_to_float
     then Raise (ZeroDivisionError "float division by zero")
     else Raise (OverflowError "int too large to convert to float")) /\
  MultipleParallelSweep.__init__ (mkEnv grid_size [])
  = (if Z.abs grid_size <? max_int_to_float
     then Raise (ZeroDivisionError "float division by zero")
     else Raise (OverflowError "int too large to convert to float")) /\
  MultipleParallelSweep.__init__ (mkEnv grid_size [])
  <> Raise MultipleParallelSweep.agents_error.
Proof.
  assert (E : MultipleParallelSweep.get_each_drone_grid_size grid_size 0
              = (if Z.abs grid_size <? max_int_to_float
                 then Raise (ZeroDivisionError "float division by zero")
                 else Raise (OverflowError
                               "int too large to convert to float"))).
  { change (MultipleParallelSweep.get_each_drone_grid_size grid_size 0)
      with (y ← truediv grid_size (py_float (S754_zero false));
            if mod1_nonzero y then Raise MultipleParallelSweep.grid_error
            else int_of_float y).
    cbn [truediv].
    destruct (Z.ltb_spec (Z.abs grid_size) max_int_to_float) as [Hlt|Hge].
    - destruct (float_of_int_finite grid_size Hlt) as [x ->]. reflexivity.
    - rewrite float_of_int_overflow by assumption. reflexivity. }
  assert (E' : MultipleParallelSweep.__init__ (mkEnv grid_size [])
               = (if Z.abs grid_size <? max_int_to_float
                  then Raise (ZeroDivisionError "float division by zero")
                  else Raise (OverflowError
                                "int too large to convert to float"))).
  { change (MultipleParallelSweep.__init__ (mkEnv grid_size []))
      with (s ← MultipleParallelSweep.get_each_drone_grid_size grid_size 0;
            Return (MultipleParallelSweep.mkself
                      (mkEnv grid_size []) grid_size 0 s)).
    rewrite E. by destruct (_ <? _). }
  split; [reflexivity|]. split; [exact E|]. split; [exact E'|].
  rewrite E'. by destruct (_ <? _).
Qed.

(** ** The broadcast *)

Lemma fill_lookup (f : Z -> string) (a : Z) (l : list Z)
    (m : gmap string Z) (key : string) :
  foldl (fun actions i => <[f i := a]> actions) m l !! key
  = if decide (key ∈ f <$> l) then Some a else m !! key.
Proof.
  revert m. induction l as [|i l IH]; intros m; cbn [foldl].
  - rewrite decide_False; [done | apply not_elem_of_nil].
  - rewrite IH, fmap_cons.
    destruct (decide (key ∈ f <$> l)) as [Hin|Hnin].
    + rewrite decide_True; [done | by apply elem_of_cons; right].
    + destruct (decide (key = f i)) as [->|Hne].
      * rewrite lookup_insert_eq, decide_True; [done | by apply elem_of_cons; left].
      * rewrite lookup_insert_ne by done.
        rewrite decide_False; [done|].
        intros [?|?]%elem_of_cons; congruence.
Qed.

Global Instance drone_key_inj : Inj (=) (=) MultipleParallelSweep.drone_key.
Proof.
  intros i j H. unfold MultipleParallelSweep.drone_key in H.
  by apply (inj (String.app "drone")), (inj pretty) in H.
Qed.

(** The dictionary of one tick: the keys [drone0 … drone{N-1}], all
    different, each with the action of the tick. *)
Lemma actions_of_spec (c : MultipleParallelSweep.self) (action : Z) :
  let actions := MultipleParallelSweep.actions_of c action in
  let N := MultipleParallelSweep.n_drones c in
  dom actions =
    list_to_set (MultipleParallelSweep.drone_key <$> seqZ 0 N) /\
  size actions = Z.to_nat N /\
  forall i, 0 <= i < N ->
    actions !! MultipleParallelSweep.drone_key i = Some action.
Proof.
  intros actions N.
  assert (Hl : forall key, actions !! key =
            if decide (key ∈ MultipleParallelSweep.drone_key <$> seqZ 0 N)
            then Some action else None).
  { intros key. unfold actions, MultipleParallelSweep.actions_of.
    rewrite fill_lookup, lookup_empty. done. }
  assert (Hd : dom actions =
            list_to_set (MultipleParallelSweep.drone_key <$> seqZ 0 N)).
  { apply set_eq. intros key.
    rewrite elem_of_dom, Hl, elem_of_list_to_set.
    destruct (decide _) as [Hin|Hnin]; split; intros H.
    - exact Hin.
    - by eexists.
    - by destruct H.
    - contradiction. }
  split; [exact Hd|]. split.
  - rewrite <- size_dom, Hd, size_list_to_set.
    + by rewrite length_fmap, length_seqZ.
    + apply NoDup_fmap_2; [apply _ | apply NoDup_seqZ].
  - intros i Hi. rewrite Hl, decide_True; [done|].
    apply list_elem_of_fmap. exists i. split; [done|].
    apply elem_of_seqZ. lia.
Qed.

(** C9, as amended.  A coordinator constructed without an exception for
    [N] agents yields, at every tick, a dictionary with exactly the [N]
    pairwise different keys [drone0 … drone{N-1}], all bound to one and the
    same action code; and for four agents on an [8×8] grid the sub-grid
    size of that coordinator is 4. *)
Theorem broadcast (env : Env) (c : MultipleParallelSweep.self) (k : nat)
    (g g' : MultipleParallelSweep.generator) (actions : gmap string Z) :
  MultipleParallelSweep.__init__ env = Return c ->
  MultipleParallelSweep.advance c k
    (MultipleParallelSweep.generate_next_action c) = Return g ->
  MultipleParallelSweep.resume c g = Return (Some actions, g') ->
  (dom actions =
     list_to_set (MultipleParallelSweep.drone_key
                    <$> seqZ 0 (Z.of_nat (length (possible_agents env)))) /\
   size actions = length (possible_agents env) /\
   exists action, forall i,
     0 <= i < Z.of_nat (length (possible_agents env)) ->
     actions !! MultipleParallelSweep.drone_key i = Some action) /\
  (env_grid_size env = 8 -> length (possible_agents env) = 4%nat ->
   MultipleParallelSweep.grid_size_each_drone c = 4).
Proof.
  intros Hc _ Hr. unfold MultipleParallelSweep.__init__ in Hc.
  destruct (MultipleParallelSweep.get_each_drone_grid_size _ _) as [s|e]
    eqn:Hs; [|discriminate].
  cbn [mbind outcome_bind] in Hc. injection Hc as <-. split.
  - assert (Hp : forall p,
              MultipleParallelSweep.pull
                (MultipleParallelSweep.mkself env (env_grid_size env)
                   (Z.of_nat (length (possible_agents env))) s) p
              = Return (Some actions, g') ->
              exists action, actions =
                MultipleParallelSweep.actions_of
                  (MultipleParallelSweep.mkself env (env_grid_size env)
                     (Z.of_nat (length (possible_agents env))) s) action).
    { intros p. unfold MultipleParallelSweep.pull.
      destruct (genarate_next_action_resume p) as [[action|] p'];
        intros [= <- _]. by exists action. }
    assert (Ha : exists action, actions =
                MultipleParallelSweep.actions_of
                  (MultipleParallelSweep.mkself env (env_grid_size env)
                     (Z.of_nat (length (possible_agents env))) s) action).
    { destruct g as [|p|]; cbn [MultipleParallelSweep.resume] in Hr.
      - rewrite init_built in Hr. cbn [mbind outcome_bind] in Hr.
        by apply Hp in Hr.
      - by apply Hp in Hr.
      - discriminate. }
    destruct Ha as [action ->].
    destruct (actions_of_spec
                (MultipleParallelSweep.mkself env (env_grid_size env)
                   (Z.of_nat (length (possible_agents env))) s) action)
      as (Hd & Hz & Hl).
    cbn [MultipleParallelSweep.n_drones] in *.
    split; [exact Hd|]. split; [by rewrite Hz, Nat2Z.id|].
    exists action. exact Hl.
  - intros Hg Hn. rewrite Hg, Hn in Hs. vm_compute in Hs.
    by injection Hs as <-.
Qed.

(** ** The planner's construction *)

(** C6.  The end position computed at construction is the last vertex when
    the grid size is odd, and the last vertex moved [gridSize - 1] columns
    back when it is even; for grid size 2 and last vertex [(1, 1)] it is
    [(1, 0)]. *)
Theorem end_position_by_parity (d : DroneInfo.t) :
  (exists p, SingleParallelSweep.__init__ d = Return p /\
     end_position p =
       if Z.odd (DroneInfo.grid_size d) then DroneInfo.last_vertice d
       else ((DroneInfo.last_vertice d).1,
             (DroneInfo.last_vertice d).2 - DroneInfo.grid_size d + 1)) /\
  (exists p, SingleParallelSweep.__init__ (DroneInfo.mk 2 (0, 0) (1, 1))
             = Return p /\
     end_position p = (1, 0)).
Proof.
  split.
  - exists (built d). split; [apply init_built|].
    destruct d as [gs [x y] [lx ly]].
    unfold built, end_position, get_end_position.
    cbn [DroneInfo.grid_size DroneInfo.last_vertice fst snd].
    rewrite Zmod_odd. destruct (Z.odd gs); reflexivity.
  - eexists. split; reflexivity.
Qed.

(** C8, as amended.  The construction of a planner rejects nothing: for
    every configuration, whatever its grid size, it returns a planner with
    that grid size, standing at the initial position, in the down phase. *)
Theorem construction_accepts (d : DroneInfo.t) :
  exists p, SingleParallelSweep.__init__ d = Return p /\
    grid_size p = DroneInfo.grid_size d /\
    position (generate_next_movement p) = DroneInfo.initial_position d /\
    is_going_down p = true.
Proof.
  exists (built d). split; [apply init_built|].
  destruct d as [gs [x y] [lx ly]]. repeat split.
Qed.

(** ** The search before a move *)

(** C1, on the [2×2] grid.  The down-sweep is the five actions up to the
    arrival at the end position [(1, 0)]; the phase is still down after the
    fifth and up after the sixth.  The consumer passes through all four
    cells, but [search] is yielded at [(0, 0)] and [(1, 1)] only: [(0, 1)]
    is entered by [right] and left by [down] at once, and the [search] at
    [(1, 0)] is the first action of the up-sweep. *)
Theorem down_sweep_2x2 :
  exists p, SingleParallelSweep.__init__ (square 2) = Return p /\
    let g := generate_next_movement p in
    trace 6 (0, 0) g =
      [((0, 0), search); ((0, 0), right); ((0, 1), down);
       ((1, 1), search); ((1, 1), left); ((1, 0), search)] /\
    consumed 5 (0, 0) g = end_position p /\
    is_going_down (this (advance 5 g)) = true /\
    is_going_down (this (advance 6 g)) = false.
Proof.
  exists (built (square 2)). split; [apply init_built|].
  repeat split.
Qed.

(** C7, on the [2×2] grid, and in general.  The first three actions are
    [search], [right], [down]: the vertical move follows the horizontal
    one with no [search] between them.  It is so for every vertical move of
    every planner: the frame that yields one was suspended at the [yield]
    of a horizontal move. *)
Theorem vertical_move_without_search :
  (exists p, SingleParallelSweep.__init__ (square 2) = Return p /\
     take 3 (generate_next_movement p) = [search; right; down]) /\
  (forall g g' a, resume g = (Some a, g') -> a = up \/ a = down ->
     exists going_down, suspended g = loop_horizontal going_down).
Proof.
  split.
  - exists (built (square 2)). split; [apply init_built | reflexivity].
  - intros [[gs x y lx ly ex ey ph] igr lbl] g' a.
    unfold resume, check_if_done, loop_top; simpl.
    destruct lbl as [| |b|b|b|]; [| | |intros _ _; by exists b| |];
      destruct igr, ph; simpl; split_tests; simpl;
      intros [= <- _] [?|?]; discriminate.
Qed.

(** ** Concrete runs *)

(** C2 at [n = 2], [k = 7]: the eighth action is produced in the up
    phase. *)
Lemma phase_alternation_witness :
  2 <= 2 /\
  exists p, SingleParallelSweep.__init__ (square 2) = Return p /\
    is_going_down (this (advance 8 (generate_next_movement p))) = false.
Proof.
  split; [lia|].
  destruct (phase_alternation 2 7 ltac:(lia)) as (p & Hp & _ & _ & Hd & _).
  exists p. split; [exact Hp | exact Hd].
Defined.

(** C3 as stated fails for two agents: on a [6×6] grid the reference
    planner has grid size 3 and stands on row 3 after sixteen actions. *)
Lemma two_drone_strip_leaves_grid :
  exists c p,
    MultipleParallelSweep.__init__ (mkEnv 6 ["drone0"; "drone1"]) = Return c /\
    SingleParallelSweep.__init__
      (MultipleParallelSweep.get_first_drone_info c) = Return p /\
    grid_size p = 3 /\
    position (advance 16 (generate_next_movement p)) = (3, 2) /\
    ~ (0 <= 3 < grid_size p /\ 0 <= 2 < grid_size p).
Proof.
  eexists _, _. split; [vm_compute; reflexivity|].
  split; [reflexivity|]. split; [reflexivity|]. split; [reflexivity|].
  intros [[_ H] _]. vm_compute in H. discriminate.
Qed.

(** C3, as amended, at the same coordinator: the row stays below 6. *)
Lemma position_in_region_witness :
  1 <= 3 /\ (2 = 2 -> 3 mod 2 = 1 /\ 3 <= 3) /\
  exists p,
    SingleParallelSweep.__init__
      (MultipleParallelSweep.get_first_drone_info
         (MultipleParallelSweep.mkself
            (mkEnv 6 ["drone0"; "drone1"]) 6 2 3)) = Return p /\
    let xy := position (advance 16 (generate_next_movement p)) in
    0 <= xy.2 < grid_size p /\
    0 <= xy.1 < 2 * grid_size p.
Proof.
  split; [lia|]. split; [intros _; split; [reflexivity | lia]|].
  apply (position_in_region
           (MultipleParallelSweep.mkself (mkEnv 6 ["drone0"; "drone1"]) 6 2 3)
           16).
  - simpl. lia.
  - intros _. simpl. split; [reflexivity | lia].
Defined.

(** C4 as stated fails beyond [2^53], where the grid size is rounded when
    it is converted: one agent on a grid of size [2^53 + 1], which the
    divisor 1 divides, gets the sub-grid size [2^53], and four agents on a
    grid of size [2^54 + 2] get [2^53] as well. *)
Lemma large_grid_size_rounded :
  ((1 | 2 ^ 53 + 1) /\
   MultipleParallelSweep.get_each_drone_grid_size (2 ^ 53 + 1) 1
   = Return (2 ^ 53) /\
   2 ^ 53 * 1 <> 2 ^ 53 + 1) /\
  ((2 | 2 ^ 54 + 2) /\
   MultipleParallelSweep.get_each_drone_grid_size (2 ^ 54 + 2) 4
   = Return (2 ^ 53) /\
   2 ^ 53 * 2 <> 2 ^ 54 + 2).
Proof.
  split; (split; [|split; [vm_compute; reflexivity | lia]]).
  - exists (2 ^ 53 + 1). lia.
  - exists (2 ^ 53 + 1). lia.
Qed.

(** C4, as amended, at four agents on an [8×8] grid, divisor 2. *)
Lemma sub_grid_size_witness :
  (4 = 1 \/ 4 = 2 \/ 4 mod 4 = 0) /\ (0 <= 2 /\ 2 * 2 = 4) /\
  0 < 8 < 2 ^ 53 /\ 4 < 2 ^ 53 /\ (2 | 8) /\
  exists s, MultipleParallelSweep.get_each_drone_grid_size 8 4 = Return s /\
            0 < s /\ s * 2 = 8.
Proof.
  assert (H1 : 4 = 1 \/ 4 = 2 \/ 4 mod 4 = 0) by (right; right; reflexivity).
  assert (H2 : 0 <= 2 /\ 2 * 2 = 4) by lia.
  assert (H3 : 0 < 8 < 2 ^ 53) by lia.
  assert (H4 : 4 < 2 ^ 53) by lia.
  assert (H5 : (2 | 8)) by (exists 4; reflexivity).
  repeat (split; [assumption|]).
  exact (sub_grid_size 8 4 2 H1 H2 H3 H4 H5).
Defined.

(** C5 at three agents on an [8×8] grid. *)
Lemma invalid_agent_count_witness :
  MultipleParallelSweep.__init__ (mkEnv 8 ["drone0"; "drone1"; "drone2"])
  = Raise MultipleParallelSweep.agents_error.
Proof.
  apply (invalid_agent_count (mkEnv 8 ["drone0"; "drone1"; "drone2"]));
    vm_compute; discriminate.
Defined.

(** C8 as stated fails: grid size 0 is accepted. *)
Lemma zero_grid_size_accepted :
  DroneInfo.grid_size (DroneInfo.mk 0 (0, 0) (-1, -1)) <= 0 /\
  ~ exists e, SingleParallelSweep.__init__ (DroneInfo.mk 0 (0, 0) (-1, -1))
              = Raise e.
Proof.
  split; [simpl; lia|]. intros [e He]. discriminate.
Qed.

(** C9 as stated fails in its example: four agents on an [8×8] grid get
    sub-grids of size 4, not 2. *)
Lemma four_agents_sub_grid_size :
  exists c,
    MultipleParallelSweep.__init__
      (mkEnv 8 ["drone0"; "drone1"; "drone2"; "drone3"]) = Return c /\
    MultipleParallelSweep.grid_size_each_drone c = 4 /\
    MultipleParallelSweep.grid_size_each_drone c <> 2.
Proof.
  eexists. split; [vm_compute; reflexivity|]. split; [reflexivity|].
  discriminate.
Qed.

(** C10 as stated fails for a grid size too large for a float: with no
    agents and a grid of size [10^400] the construction raises
    [OverflowError] when the grid size is converted, before any division. *)
Lemma huge_grid_zero_agents_overflow :
  MultipleParallelSweep.__init__ (mkEnv (10 ^ 400) [])
  = Raise (OverflowError "int too large to convert to float") /\
  MultipleParallelSweep.__init__ (mkEnv (10 ^ 400) [])
  <> Raise (ZeroDivisionError "float division by zero").
Proof.
  assert (E : MultipleParallelSweep.__init__ (mkEnv (10 ^ 400) [])
              = Raise (OverflowError "int too large to convert to float"))
    by (vm_compute; reflexivity).
  split; [exact E|]. rewrite E. discriminate.
Qed.

(** C9, as amended, at the second tick of that coordinator. *)
Lemma broadcast_witness :
  exists c g g' actions,
    MultipleParallelSweep.__init__
      (mkEnv 8 ["drone0"; "drone1"; "drone2"; "drone3"]) = Return c /\
    MultipleParallelSweep.advance c 1
      (MultipleParallelSweep.generate_next_action c) = Return g /\
    MultipleParallelSweep.resume c g = Return (Some actions, g') /\
    size actions = 4%nat /\
    actions !! "drone3" = Some 1.
Proof.
  eexists _, _, _, _.
  split; [vm_compute; reflexivity|].
  split; [reflexivity|].
  split; [reflexivity|].
  match goal with
  | |- size ?m = _ /\ _ =>
      destruct (broadcast (mkEnv 8 ["drone0"; "drone1"; "drone2"; "drone3"])
                  _ 1 _ _ m
                  ltac:(vm_compute; reflexivity) eq_refl eq_refl)
        as [(_ & Hs & _) _]
  end.
  split; [exact Hs | reflexivity].
Defined.

(** * Further properties *)

(** ** The stream of any planner *)

Lemma in_loop_resume (g : generator) :
  in_loop g -> (exists a, (resume g).1 = Some a) /\ in_loop (resume g).2.
Proof.
  destruct g as [[gs x y lx ly ex ey ph] igr lbl].
  unfold in_loop, resume, check_if_done, loop_top; simpl.
  destruct lbl as [| |b|b|b|]; try contradiction; intros _;
    destruct igr, ph; simpl; split_tests; simpl; split; eauto.
Qed.

Lemma in_loop_take (g : generator) (k : nat) :
  in_loop g -> length (take k g) = k.
Proof.
  revert g. induction k as [|k IH]; intros g Hg; simpl; [reflexivity|].
  destruct (in_loop_resume g Hg) as [[a Ha] Hl].
  destruct (resume g) as [[a'|] g']; simpl in *; [|discriminate].
  f_equal. apply IH, Hl.
Qed.

(** The action that brings a frame to the [yield] of [search] in the loop
    is that [search]; a horizontal move is yielded from there only. *)
Lemma resume_to_search (g : generator) (b : bool) :
  suspended (resume g).2 = loop_search b -> (resume g).1 = Some search.
Proof.
  destruct g as [[gs x y lx ly ex ey ph] igr lbl].
  unfold resume, check_if_done, loop_top; simpl.
  destruct lbl as [| |b'|b'|b'|]; destruct igr, ph; simpl;
    split_tests; simpl; intros H; try reflexivity; discriminate.
Qed.

Lemma resume_horizontal (g : generator) (a : PossibleActions) :
  (resume g).1 = Some a -> a = left \/ a = right ->
  exists b, suspended g = loop_search b.
Proof.
  destruct g as [[gs x y lx ly ex ey ph] igr lbl].
  unfold resume, check_if_done, loop_top; simpl.
  destruct lbl as [| |b|b|b|]; [| |intros _ _; by exists b| | |];
    destruct igr, ph; simpl; split_tests; simpl;
    intros [= <-] [?|?]; try discriminate; destruct b; discriminate.
Qed.

Lemma take_lookup (K k : nat) (g : generator) (a : PossibleActions) :
  take K g !! k = Some a -> (resume (advance k g)).1 = Some a.
Proof.
  revert k g. induction K as [|K IH]; intros k g; simpl; [done|].
  destruct (resume g) as [[a0|] g'] eqn:E; [|done].
  destruct k as [|k]; simpl.
  - intros [= <-]. by rewrite E.
  - rewrite E. simpl. apply IH.
Qed.

Lemma stopped_stays (g g' : generator) (k : nat) :
  resume g = (None, g') -> (resume (advance k g')).1 = None.
Proof.
  intros H.
  assert (Hf : suspended g' = finished).
  { destruct g as [[gs x y lx ly ex ey ph] igr lbl].
    revert H. unfold resume, check_if_done, loop_top; simpl.
    destruct lbl as [| |b|b|b|], igr, ph; simpl; split_tests; simpl;
      intros [= <-]; reflexivity. }
  clear H. induction k as [|k IH]; simpl.
  - unfold resume. rewrite Hf. reflexivity.
  - replace (resume g').2 with g'; [exact IH|].
    unfold resume. rewrite Hf. reflexivity.
Qed.

(** X1.  A planner that is constructed on its end position yields one
    [search] and stops for good; any other planner, whatever its grid size
    and its vertices, never stops. *)
Theorem stream_stops_iff (d : DroneInfo.t) (k : nat) :
  exists p, SingleParallelSweep.__init__ d = Return p /\
    (DroneInfo.initial_position d = end_position p ->
     take (S k) (generate_next_movement p) = [search] /\
     (resume (advance (S k) (generate_next_movement p))).1 = None) /\
    (DroneInfo.initial_position d <> end_position p ->
     length (take k (generate_next_movement p)) = k).
Proof.
  exists (built d). split; [apply init_built|].
  destruct d as [gs [x y] [lx ly]].
  unfold built, end_position.
  cbn [DroneInfo.grid_size DroneInfo.initial_position DroneInfo.last_vertice
       fst snd end_position_x end_position_y].
  destruct (get_end_position gs lx ly) as [ex ey]. cbn [fst snd].
  set (p := mkself gs x y lx ly ex ey true). split.
  - intros [= -> ->].
    destruct (single_cell p k eq_refl eq_refl eq_refl) as [Ht _].
    split; [exact Ht|].
    assert (E1 : resume (generate_next_movement p)
                 = (Some search,
                    mkgen (mkself gs ex ey lx ly ex ey false) true
                          turnaround_search)).
    { unfold p, resume, check_if_done; simpl.
      rewrite !Z.eqb_refl. reflexivity. }
    simpl advance. rewrite E1. cbn [snd].
    destruct k as [|k]; [reflexivity|].
    simpl advance.
    apply (stopped_stays
             (mkgen (mkself gs ex ey lx ly ex ey false) true
                    turnaround_search)).
    reflexivity.
  - intros Hne. destruct k as [|k]; [reflexivity|].
    assert (E1 : resume (generate_next_movement p)
                 = (Some search, mkgen p true (loop_search true))).
    { unfold p, resume, check_if_done, loop_top; simpl.
      destruct (Z.eqb_spec x ex), (Z.eqb_spec y ey); simpl;
        try reflexivity. congruence. }
    simpl take. rewrite E1. simpl. f_equal. by apply in_loop_take.
Qed.

(** X2.  In the stream of any planner, from any point on, a [left] or a
    [right] comes directly after a [search]. *)
Theorem horizontal_move_after_search (g : generator) (K k : nat)
    (a : PossibleActions) :
  take K g !! S k = Some a -> a = left \/ a = right ->
  take K g !! k = Some search.
Proof.
  intros Hk Ha.
  assert (Hlt : (k < length (take K g))%nat).
  { apply lookup_lt_Some in Hk. lia. }
  destruct (lookup_lt_is_Some_2 _ _ Hlt) as [a' Ha'].
  rewrite Ha'. f_equal.
  apply take_lookup in Hk, Ha'.
  destruct (resume_horizontal _ _ Hk Ha) as [b Hb].
  rewrite advance_succ in Hb. apply resume_to_search in Hb. congruence.
Qed.

Lemma horizontal_move_after_search_witness :
  take 5 (generate_next_movement (built (square 2))) !! 1%nat = Some right /\
  take 5 (generate_next_movement (built (square 2))) !! 0%nat = Some search.
Proof.
  split; [reflexivity|].
  apply (horizontal_move_after_search _ 5 0 right); [reflexivity | by right].
Defined.

Lemma take_add (a b : nat) (g : generator) :
  length (take a g) = a ->
  take (a + b) g = take a g ++ take b (advance a g).
Proof.
  revert g. induction a as [|a IH]; intros g; simpl; [done|].
  destruct (resume g) as [[x|] g1]; simpl; [|done].
  intros [= Hl]. f_equal. by apply IH.
Qed.

Lemma take_lookup_2 (K k : nat) (g : generator) (a : PossibleActions) :
  (k < K)%nat -> (resume (advance k g)).1 = Some a ->
  take K g !! k = Some a.
Proof.
  revert k g. induction K as [|K IH]; intros k g Hk; [lia|].
  simpl take. destruct (resume g) as [[a0|] g1] eqn:E.
  - destruct k as [|k]; simpl.
    + rewrite E. by intros [= ->].
    + rewrite E. simpl. apply IH. lia.
  - destruct k as [|k]; simpl.
    + by rewrite E.
    + rewrite E. simpl. by rewrite (stopped_stays g g1 k E).
Qed.

Lemma trace_lookup (K k : nat) (p : Z * Z) (g : generator)
    (a : PossibleActions) :
  take K g !! k = Some a ->
  trace K p g !! k = Some (consumed k p g, a).
Proof.
  unfold consumed.
  revert k p g. induction K as [|K IH]; intros k p g; simpl; [done|].
  destruct (resume g) as [[a0|] g1] eqn:E; [|done].
  destruct k as [|k]; simpl.
  - by intros [= ->].
  - rewrite E. simpl. apply IH.
Qed.

Lemma consumed_search (k : nat) (g : generator) :
  (resume (advance k g)).1 = Some search ->
  consumed k (tracked g) g = tracked (advance (S k) g).
Proof.
  intros H. rewrite consumed_tracked, advance_succ.
  destruct (resume (advance k g)) as [a g'] eqn:E. simpl in H. subst a.
  cbn [snd]. by rewrite (tracked_resume _ _ _ E).
Qed.

Lemma first_resume_label (s : self) :
  match suspended (resume (generate_next_movement s)).2 with
  | turnaround_search | loop_search _ => True
  | _ => False
  end.
Proof.
  destruct s as [gs x y lx ly ex ey ph].
  unfold generate_next_movement, resume, check_if_done, loop_top; simpl.
  destruct ph; split_tests; simpl; exact I.
Qed.

(** ** The cycle of a sweep *)

Lemma resume_last_vertice (g : generator) :
  last_vertice_x (this (resume g).2) = last_vertice_x (this g) /\
  last_vertice_y (this (resume g).2) = last_vertice_y (this g).
Proof.
  destruct g as [[gs x y lx ly ex ey ph] igr lbl].
  unfold resume, check_if_done, loop_top; simpl.
  destruct lbl as [| |b|b|b|], igr, ph; simpl; split_tests; simpl;
    split; reflexivity.
Qed.

Lemma advance_last_vertice (k : nat) (g : generator) :
  last_vertice_x (this (advance k g)) = last_vertice_x (this g) /\
  last_vertice_y (this (advance k g)) = last_vertice_y (this g).
Proof.
  induction k as [|k [IHx IHy]]; [by split|].
  rewrite advance_succ.
  destruct (resume_last_vertice (advance k g)) as [-> ->]. by split.
Qed.

Section Cycle.

Variables cols rows : Z.
Hypothesis cols_ge : 2 <= cols.
Hypothesis rows_ge : 1 <= rows.

(** A frame of the sweep is determined by its place in the cycle. *)
Lemma sweeping_clock_inj (g g' : generator) :
  sweeping cols rows g -> sweeping cols rows g' ->
  clock cols rows g = clock cols rows g' ->
  last_vertice_x (this g) = last_vertice_x (this g') ->
  last_vertice_y (this g) = last_vertice_y (this g') ->
  g = g'.
Proof using cols_ge rows_ge.
  destruct g as [[gs x y lx ly ex ey ph] igr lbl].
  destruct g' as [[gs' x' y' lx' ly' ex' ey' ph'] igr' lbl'].
  unfold sweeping, clock, offset, half, row_right; simpl.
  intros (-> & -> & -> & Hx & Hy & H) (-> & -> & -> & Hx' & Hy' & H')
    Hc -> ->.
  assert (x' = x \/ (x + 1) * (2 * cols - 1) <= x' * (2 * cols - 1)
          \/ (x' + 1) * (2 * cols - 1) <= x * (2 * cols - 1)) by nia.
  assert (0 <= x * (2 * cols - 1) <= (rows - 1) * (2 * cols - 1)) by nia.
  assert (0 <= x' * (2 * cols - 1) <= (rows - 1) * (2 * cols - 1)) by nia.
  assert (x < rows - 1 ->
          (x + 1) * (2 * cols - 1) <= (rows - 1) * (2 * cols - 1)) by nia.
  assert (x' < rows - 1 ->
          (x' + 1) * (2 * cols - 1) <= (rows - 1) * (2 * cols - 1)) by nia.
  destruct lbl as [| |b|b|b|]; try contradiction;
    destruct lbl' as [| |b'|b'|b'|]; try contradiction;
    destruct H as (-> & Hr & H), H' as (-> & Hr' & H');
    destruct ph, ph', igr, igr'; simpl in *;
    try (exfalso; lia);
    try (assert (x' = x) by lia; subst x';
         first [ congruence
               | assert (y' = y) by lia; subst y'; reflexivity ]).
Qed.

(** The planner that starts the sweep at the origin. *)
Variable p : self.
Hypothesis p_grid : grid_size p = cols.
Hypothesis p_end : end_position p = (rows - 1, end_col cols rows).
Hypothesis p_x : drone_x p = 0.
Hypothesis p_y : drone_y p = 0.
Hypothesis p_down : is_going_down p = true.

Lemma cycle_frame (k : nat) :
  sweeping cols rows (advance (S k) (generate_next_movement p)) /\
  clock cols rows (advance (S k) (generate_next_movement p))
  = Z.of_nat k mod (2 * half cols rows).
Proof using All.
  destruct (sweeping_run cols rows cols_ge rows_ge p k
              p_grid p_end p_x p_y p_down) as (Hs & Hc & _).
  by split.
Qed.

(** A frame of the sweep is reached when the clock says so. *)
Lemma frame_at (g : generator) :
  sweeping cols rows g ->
  last_vertice_x (this g) = last_vertice_x p ->
  last_vertice_y (this g) = last_vertice_y p ->
  advance (S (Z.to_nat (clock cols rows g))) (generate_next_movement p) = g.
Proof using All.
  intros Hs Hlx Hly.
  pose proof (sweeping_clock cols rows cols_ge rows_ge g Hs) as Hb.
  destruct (cycle_frame (Z.to_nat (clock cols rows g))) as [Hs' Hc'].
  apply sweeping_clock_inj; try assumption.
  - rewrite Hc', Z2Nat.id, Z.mod_small; lia.
  - destruct (advance_last_vertice (S (Z.to_nat (clock cols rows g)))
                (generate_next_movement p)) as [-> _]. by rewrite Hlx.
  - destruct (advance_last_vertice (S (Z.to_nat (clock cols rows g)))
                (generate_next_movement p)) as [_ ->]. by rewrite Hly.
Qed.

(** After a down-sweep and an up-sweep the frame is the same again. *)
Lemma cycle_period (k : nat) :
  advance (S (Z.to_nat (2 * half cols rows) + k)) (generate_next_movement p)
  = advance (S k) (generate_next_movement p).
Proof using All.
  pose proof (half_pos cols rows cols_ge rows_ge) as Hh.
  destruct (cycle_frame (Z.to_nat (2 * half cols rows) + k)) as [Hs Hc].
  destruct (cycle_frame k) as [Hs' Hc'].
  apply sweeping_clock_inj; try assumption.
  - rewrite Hc, Hc', Nat2Z.inj_add, Z2Nat.id by lia.
    rewrite Zplus_mod, Z_mod_same_full, Z.add_0_l, Zmod_mod. reflexivity.
  - destruct (advance_last_vertice (S (Z.to_nat (2 * half cols rows) + k))
                (generate_next_movement p)) as [-> _].
    by destruct (advance_last_vertice (S k) (generate_next_movement p))
      as [-> _].
  - destruct (advance_last_vertice (S (Z.to_nat (2 * half cols rows) + k))
                (generate_next_movement p)) as [_ ->].
    by destruct (advance_last_vertice (S k) (generate_next_movement p))
      as [_ ->].
Qed.

Lemma start_tracked : tracked (generate_next_movement p) = (0, 0).
Proof using p_x p_y.
  unfold tracked, position; simpl. by rewrite p_x, p_y.
Qed.

Lemma cycle_length :
  length (take (Z.to_nat (2 * half cols rows)) (generate_next_movement p))
  = Z.to_nat (2 * half cols rows).
Proof using All.
  pose proof (half_pos cols rows cols_ge rows_ge) as Hh.
  destruct (Z.to_nat (2 * half cols rows)) as [|P] eqn:E; [lia|].
  by destruct (sweeping_run cols rows cols_ge rows_ge p P
                 p_grid p_end p_x p_y p_down) as (_ & _ & Hl).
Qed.

(** The stream after a full cycle is the stream from the start. *)
Lemma cycle_take (k : nat) :
  take (Z.to_nat (2 * half cols rows) + k) (generate_next_movement p)
  = take (Z.to_nat (2 * half cols rows)) (generate_next_movement p)
    ++ take k (generate_next_movement p).
Proof using All.
  rewrite (take_add _ _ _ cycle_length). f_equal.
  destruct k as [|k]; [reflexivity|]. simpl take.
  set (g0 := generate_next_movement p).
  set (P := Z.to_nat (2 * half cols rows)).
  assert (Hp : (resume (advance P g0)).2 = (resume g0).2).
  { rewrite <- advance_succ.
    replace (S P) with (S (P + 0)) by lia. apply cycle_period. }
  destruct (sweeping_first cols rows cols_ge rows_ge p
              p_grid p_end p_x p_y p_down) as (Ha & Hs & _).
  fold g0 in Ha, Hs.
  assert (Ha' : (resume (advance P g0)).1 = Some search).
  { pose proof (first_resume_label p) as Hl. fold g0 in Hl.
    destruct (suspended (resume g0).2) as [| |b| | |] eqn:El;
      try contradiction.
    - unfold sweeping in Hs. rewrite El in Hs. tauto.
    - apply (resume_to_search _ b). by rewrite Hp. }
  destruct (resume (advance P g0)) as [a1 g1], (resume g0) as [a2 g2].
  simpl in *. by subst.
Qed.

(** Every cell of the region gets its [search] within one cycle. *)
Lemma cycle_searches (x y : Z) :
  0 <= x < rows -> 0 <= y < cols ->
  exists k, (k < Z.to_nat (2 * half cols rows))%nat /\
    trace (Z.to_nat (2 * half cols rows)) (0, 0) (generate_next_movement p)
      !! k = Some ((x, y), search).
Proof using All.
  intros Hx Hy.
  set (gd := offset cols (row_right true x) y <=? cols - 2).
  set (g := search_frame cols rows (last_vertice_x p) (last_vertice_y p)
              gd x y).
  assert (Hs : sweeping cols rows g).
  { unfold g, search_frame, sweeping, offset, row_right, gd; simpl.
    repeat split; try lia.
    unfold offset, row_right.
    destruct (Z.leb_spec (if x mod 2 =? 0 then y else cols - 1 - y)
                         (cols - 2)); split_tests; parity_lia. }
  pose proof (sweeping_clock cols rows cols_ge rows_ge g Hs) as Hb.
  pose proof (frame_at g Hs eq_refl eq_refl) as Hf.
  set (t := Z.to_nat (clock cols rows g)) in *.
  assert (Ha : (resume (advance t (generate_next_movement p))).1
               = Some search).
  { apply (resume_to_search _ gd). by rewrite <- advance_succ, Hf. }
  assert (Hlt : (t < Z.to_nat (2 * half cols rows))%nat) by (unfold t; lia).
  exists t. split; [exact Hlt|].
  rewrite (trace_lookup _ _ _ _ _ (take_lookup_2 _ _ _ _ Hlt Ha)).
  rewrite <- start_tracked, (consumed_search _ _ Ha), Hf. reflexivity.
Qed.

(** Every cell of the region is passed within the down-sweep. *)
Lemma cycle_visits (x y : Z) :
  0 <= x < rows -> 0 <= y < cols ->
  exists k, (k <= Z.to_nat (half cols rows))%nat /\
    consumed k (0, 0) (generate_next_movement p) = (x, y).
Proof using All.
  intros Hx Hy.
  set (right_ := row_right true x).
  set (g := if offset cols right_ y <=? cols - 2
            then search_frame cols rows (last_vertice_x p)
                   (last_vertice_y p) true x y
            else horizontal_frame cols rows (last_vertice_x p)
                   (last_vertice_y p) true x
                   (if right_ then y - 1 else y + 1)).
  assert (Hs : sweeping cols rows g /\ tracked g = (x, y) /\
               is_going_down (this g) = true /\
               last_vertice_x (this g) = last_vertice_x p /\
               last_vertice_y (this g) = last_vertice_y p).
  { unfold g, search_frame, horizontal_frame, sweeping, tracked, position,
      offset, right_, row_right.
    destruct (Z.leb_spec (if x mod 2 =? 0 then y else cols - 1 - y)
                         (cols - 2)); simpl; unfold offset, row_right;
      split_tests; repeat split; try (f_equal; lia); try lia. }
  destruct Hs as (Hs & Ht & Hd & Hlx & Hly).
  pose proof (sweeping_clock cols rows cols_ge rows_ge g Hs) as Hb.
  pose proof (sweeping_phase cols rows cols_ge rows_ge g Hs) as Hp.
  rewrite Hd in Hp. symmetry in Hp. apply Z.ltb_lt in Hp.
  pose proof (frame_at g Hs Hlx Hly) as Hf.
  exists (S (Z.to_nat (clock cols rows g))). split; [lia|].
  by rewrite <- start_tracked, consumed_tracked, Hf.
Qed.

End Cycle.

(** ** Coverage and period on the square grid and on the strip *)

Lemma square_start (n : Z) :
  grid_size (built (square n)) = n /\
  end_position (built (square n)) = (n - 1, end_col n n) /\
  drone_x (built (square n)) = 0 /\ drone_y (built (square n)) = 0 /\
  is_going_down (built (square n)) = true.
Proof.
  unfold built, square, get_end_position, end_col, end_position. simpl.
  destruct (n mod 2 =? 0); simpl; repeat split; f_equal; lia.
Qed.

(** The reference planner of two agents on sub-grids of odd size [s]. *)
Lemma strip_start (c : MultipleParallelSweep.self) :
  MultipleParallelSweep.n_drones c = 2 ->
  MultipleParallelSweep.grid_size_each_drone c mod 2 = 1 ->
  let s := MultipleParallelSweep.grid_size_each_drone c in
  let p := built (MultipleParallelSweep.get_first_drone_info c) in
  grid_size p = s /\
  end_position p = (2 * s - 1, end_col s (2 * s)) /\
  drone_x p = 0 /\ drone_y p = 0 /\ is_going_down p = true.
Proof.
  destruct c as [env gs n s].
  unfold MultipleParallelSweep.get_first_drone_info.
  cbn [MultipleParallelSweep.grid_size_each_drone
       MultipleParallelSweep.n_drones].
  intros -> Hodd. simpl.
  unfold built, get_end_position, end_col, end_position; simpl.
  split_tests; simpl; repeat split; try (f_equal; lia);
    exfalso; parity_lia.
Qed.

(** X3.  On an [n×n] grid, [n >= 2], the consumer of the stream passes
    every cell within the down-sweep, that is within the first
    [(n-1)(2n+1)] actions. *)
Theorem every_cell_passed_in_down_sweep (n x y : Z) :
  2 <= n -> 0 <= x < n -> 0 <= y < n ->
  exists p, SingleParallelSweep.__init__ (square n) = Return p /\
    exists k, Z.of_nat k <= (n - 1) * (2 * n + 1) /\
      consumed k (0, 0) (generate_next_movement p) = (x, y).
Proof.
  intros Hn Hx Hy. exists (built (square n)). split; [apply init_built|].
  destruct (square_start n) as (Hg & He & H0 & H1 & Hd).
  destruct (cycle_visits n n Hn ltac:(lia) _ Hg He H0 H1 Hd x y Hx Hy)
    as (k & Hk & Hc).
  exists k. split; [|exact Hc].
  replace ((n - 1) * (2 * n + 1)) with (half n n) by (unfold half; lia).
  pose proof (half_pos n n Hn ltac:(lia)). lia.
Qed.

(** X4.  On an [n×n] grid, [n >= 2], every cell gets a [search] within one
    cycle, that is among the first [2(n-1)(2n+1)] actions: what the
    down-sweep leaves out, the up-sweep searches. *)
Theorem every_cell_searched_in_cycle (n x y : Z) :
  2 <= n -> 0 <= x < n -> 0 <= y < n ->
  exists p, SingleParallelSweep.__init__ (square n) = Return p /\
    ((x, y), search)
    ∈ trace (Z.to_nat (2 * ((n - 1) * (2 * n + 1)))) (0, 0)
            (generate_next_movement p).
Proof.
  intros Hn Hx Hy. exists (built (square n)). split; [apply init_built|].
  destruct (square_start n) as (Hg & He & H0 & H1 & Hd).
  destruct (cycle_searches n n Hn ltac:(lia) _ Hg He H0 H1 Hd x y Hx Hy)
    as (k & Hk & Hc).
  replace ((n - 1) * (2 * n + 1)) with (half n n) by (unfold half; lia).
  by apply list_elem_of_lookup_2 in Hc.
Qed.

(** X5.  On an [n×n] grid, [n >= 2], the stream is periodic: after the
    [2(n-1)(2n+1)] actions of a cycle it starts again from its first
    action. *)
Theorem stream_period (n : Z) (k : nat) :
  2 <= n ->
  exists p, SingleParallelSweep.__init__ (square n) = Return p /\
    let P := Z.to_nat (2 * ((n - 1) * (2 * n + 1))) in
    take (P + k) (generate_next_movement p)
    = take P (generate_next_movement p) ++ take k (generate_next_movement p).
Proof.
  intros Hn. exists (built (square n)). split; [apply init_built|].
  destruct (square_start n) as (Hg & He & H0 & H1 & Hd).
  replace ((n - 1) * (2 * n + 1)) with (half n n) by (unfold half; lia).
  apply (cycle_take n n Hn ltac:(lia) _ Hg He H0 H1 Hd).
Qed.

(** X6.  For two agents on sub-grids of odd size [s >= 3] the reference
    planner sweeps the strip of [2s] rows and [s] columns: every cell of it
    gets a [search] within one cycle of [2((2s-1)(2s-1) + 2(s-1))] actions,
    after which the stream starts again. *)
Theorem strip_searched_in_cycle (c : MultipleParallelSweep.self)
    (x y : Z) (k : nat) :
  MultipleParallelSweep.n_drones c = 2 ->
  MultipleParallelSweep.grid_size_each_drone c mod 2 = 1 ->
  3 <= MultipleParallelSweep.grid_size_each_drone c ->
  0 <= x < 2 * MultipleParallelSweep.grid_size_each_drone c ->
  0 <= y < MultipleParallelSweep.grid_size_each_drone c ->
  exists p,
    SingleParallelSweep.__init__
      (MultipleParallelSweep.get_first_drone_info c) = Return p /\
    let s := MultipleParallelSweep.grid_size_each_drone c in
    let P := Z.to_nat (2 * ((2 * s - 1) * (2 * s - 1) + 2 * (s - 1))) in
    ((x, y), search) ∈ trace P (0, 0) (generate_next_movement p) /\
    take (P + k) (generate_next_movement p)
    = take P (generate_next_movement p) ++ take k (generate_next_movement p).
Proof.
  intros H2 Hodd Hs Hx Hy. eexists. split; [apply init_built|].
  destruct (strip_start c H2 Hodd) as (Hg & He & H0 & H1 & Hd).
  set (s := MultipleParallelSweep.grid_size_each_drone c) in *.
  cbv zeta.
  replace ((2 * s - 1) * (2 * s - 1) + 2 * (s - 1)) with (half s (2 * s))
    by (unfold half; lia).
  assert (Hc : 2 <= s) by lia. assert (Hr : 1 <= 2 * s) by lia.
  split.
  - destruct (cycle_searches s (2 * s) Hc Hr _ Hg He H0 H1 Hd x y Hx Hy)
      as (j & Hj & Hl).
    by apply list_elem_of_lookup_2 in Hl.
  - apply (cycle_take s (2 * s) Hc Hr _ Hg He H0 H1 Hd).
Qed.

Lemma every_cell_passed_in_down_sweep_witness :
  exists p, SingleParallelSweep.__init__ (square 3) = Return p /\
    exists k, Z.of_nat k <= (3 - 1) * (2 * 3 + 1) /\
      consumed k (0, 0) (generate_next_movement p) = (1, 0).
Proof.
  apply (every_cell_passed_in_down_sweep 3 1 0); lia.
Defined.

Lemma every_cell_searched_in_cycle_witness :
  exists p, SingleParallelSweep.__init__ (square 2) = Return p /\
    ((0, 1), search)
    ∈ trace (Z.to_nat (2 * ((2 - 1) * (2 * 2 + 1)))) (0, 0)
            (generate_next_movement p).
Proof.
  apply (every_cell_searched_in_cycle 2 0 1); lia.
Defined.

Lemma stream_period_witness :
  exists p, SingleParallelSweep.__init__ (square 2) = Return p /\
    take (10 + 3) (generate_next_movement p)
    = take 10 (generate_next_movement p) ++ take 3 (generate_next_movement p).
Proof.
  apply (stream_period 2 3). lia.
Defined.

Lemma strip_searched_in_cycle_witness :
  exists p,
    SingleParallelSweep.__init__
      (MultipleParallelSweep.get_first_drone_info
         (MultipleParallelSweep.mkself
            (mkEnv 6 ["drone0"; "drone1"]) 6 2 3)) = Return p /\
    ((5, 2), search) ∈ trace 58 (0, 0) (generate_next_movement p) /\
    take (58 + 4) (generate_next_movement p)
    = take 58 (generate_next_movement p) ++ take 4 (generate_next_movement p).
Proof.
  apply (strip_searched_in_cycle
           (MultipleParallelSweep.mkself (mkEnv 6 ["drone0"; "drone1"]) 6 2 3)
           5 2 4); simpl; try reflexivity; lia.
Defined.

(** ** Two agents on sub-grids of even size *)

Section Descent.

Variable cols : Z.
Hypothesis cols_ge : 2 <= cols.

Lemma descending_resume (g : generator) :
  descending cols g ->
  descending cols (resume g).2 /\
  (resume g).1 <> None /\
  clock cols 1 (resume g).2 = clock cols 1 g + 1.
Proof using cols_ge.
  destruct g as [[gs x y lx ly ex ey ph] igr lbl].
  unfold descending, clock, offset, row_right,
    resume, check_if_done, loop_top; simpl.
  intros (-> & He & -> & Hx & Hy & H).
  destruct lbl as [| |b|b|b|]; try contradiction.
  - destruct H as (-> & Hr & Ho). destruct igr; sweep_step.
  - destruct H as (-> & Hr & Ho). destruct igr; sweep_step.
  - destruct H as (-> & Hr & Hc). destruct igr; sweep_step.
Qed.

Lemma descending_first (s : self) :
  grid_size s = cols -> end_position_y s < 0 ->
  drone_x s = 0 -> drone_y s = 0 -> is_going_down s = true ->
  let r := resume (generate_next_movement s) in
  r.1 <> None /\ descending cols r.2 /\ clock cols 1 r.2 = 0.
Proof using cols_ge.
  destruct s as [gs x y lx ly ex ey ph].
  unfold descending, clock, offset, row_right,
    generate_next_movement, resume, check_if_done, loop_top; simpl.
  intros -> He -> -> ->. split_tests; sweep_step.
Qed.

Lemma descending_advance (g : generator) (k : nat) :
  descending cols g ->
  descending cols (advance k g) /\
  clock cols 1 (advance k g) = clock cols 1 g + Z.of_nat k /\
  length (take k g) = k.
Proof using cols_ge.
  revert g. induction k as [|k IH]; intros g Hg.
  - simpl. split; [assumption|]. split; [lia | reflexivity].
  - destruct (descending_resume g Hg) as (Hs & Hy & Hc).
    destruct (IH _ Hs) as (IHs & IHc & IHl).
    simpl. split; [assumption|]. split; [lia|].
    destruct (resume g) as [[a|] g']; simpl in *; [|congruence].
    by f_equal.
Qed.

(** The row of a descending frame is its clock divided by the length of
    a row with its vertical step. *)
Lemma descending_row (g : generator) :
  descending cols g ->
  drone_x (this g) = clock cols 1 g / (2 * cols - 1).
Proof using cols_ge.
  destruct g as [[gs x y lx ly ex ey ph] igr lbl].
  unfold descending, clock, offset; simpl.
  intros (_ & _ & -> & Hx & Hy & H).
  destruct lbl as [| |b|b|b|]; try contradiction;
    [destruct H as (_ & _ & Ho) ..| destruct H as (_ & _ & Hc)];
    match goal with
    | |- x = (x * ?w + ?r) / ?w => apply (Z.div_unique _ w x r)
    end; destruct igr; lia.
Qed.

End Descent.

(** X7.  For two agents on sub-grids of even size [s >= 2] the end
    position of the reference planner has the column [1 - s], which no
    sweep reaches: the planner never stops, never leaves the down phase,
    and stands on row [k / (2s - 1)] once it has produced action [k+1], so
    that it goes down without bound. *)
Theorem two_agents_even_descend (c : MultipleParallelSweep.self) (k : nat) :
  MultipleParallelSweep.n_drones c = 2 ->
  MultipleParallelSweep.grid_size_each_drone c mod 2 = 0 ->
  2 <= MultipleParallelSweep.grid_size_each_drone c ->
  exists p,
    SingleParallelSweep.__init__
      (MultipleParallelSweep.get_first_drone_info c) = Return p /\
    let g := generate_next_movement p in
    end_position p
    = (2 * MultipleParallelSweep.grid_size_each_drone c - 1,
       1 - MultipleParallelSweep.grid_size_each_drone c) /\
    length (take k g) = k /\
    is_going_down (this (advance k g)) = true /\
    drone_x (this (advance (S k) g))
    = Z.of_nat k / (2 * MultipleParallelSweep.grid_size_each_drone c - 1).
Proof.
  intros H2 Heven Hs. eexists. split; [apply init_built|].
  destruct c as [env gs n s].
  unfold MultipleParallelSweep.get_first_drone_info.
  cbn [MultipleParallelSweep.grid_size_each_drone
       MultipleParallelSweep.n_drones] in *.
  subst n. simpl (negb _). cbv iota.
  set (p := built _).
  assert (Hp : grid_size p = s /\ end_position p = (2 * s - 1, 1 - s) /\
               drone_x p = 0 /\ drone_y p = 0 /\ is_going_down p = true).
  { unfold p, built, get_end_position, end_position; simpl.
    split_tests; simpl; repeat split; try (f_equal; lia);
      exfalso; parity_lia. }
  destruct Hp as (Hg & He & Hx & Hy & Hd). clearbody p.
  assert (Hey : end_position_y p < 0).
  { unfold end_position in He. injection He as _ ->. lia. }
  destruct (descending_first s Hs p Hg Hey Hx Hy Hd) as (Ha & Hds & Hc0).
  cbv zeta. split; [exact He|].
  assert (Hk : forall j,
            descending s (advance (S j) (generate_next_movement p)) /\
            clock s 1 (advance (S j) (generate_next_movement p))
            = Z.of_nat j /\
            length (take (S j) (generate_next_movement p)) = S j).
  { intros j. destruct (descending_advance s Hs _ j Hds) as (H1 & H3 & H4).
    simpl advance. split; [exact H1|]. split; [lia|].
    simpl take.
    destruct (resume (generate_next_movement p)) as [[a|] g']; simpl in *;
      [by f_equal | congruence]. }
  split; [|split].
  - destruct k as [|k]; [reflexivity | apply Hk].
  - destruct k as [|k]; [exact Hd|].
    destruct (Hk k) as (Hdk & _). unfold descending in Hdk. tauto.
  - destruct (Hk k) as (Hdk & Hck & _).
    rewrite (descending_row s Hs _ Hdk), Hck. reflexivity.
Qed.

Lemma two_agents_even_descend_witness :
  exists p,
    SingleParallelSweep.__init__
      (MultipleParallelSweep.get_first_drone_info
         (MultipleParallelSweep.mkself
            (mkEnv 4 ["drone0"; "drone1"]) 4 2 2)) = Return p /\
    end_position p = (3, -1) /\
    length (take 30 (generate_next_movement p)) = 30%nat /\
    is_going_down (this (advance 30 (generate_next_movement p))) = true /\
    drone_x (this (advance 31 (generate_next_movement p))) = 10.
Proof.
  apply (two_agents_even_descend
           (MultipleParallelSweep.mkself (mkEnv 4 ["drone0"; "drone1"]) 4 2 2)
           30); simpl; try reflexivity; lia.
Defined.

(** ** The initial positions *)

Lemma py_range_multiples (s d : Z) :
  0 < s -> 0 <= d ->
  py_range 0 (s * d) s = Return ((fun k => 0 + k * s) <$> seqZ 0 d).
Proof.
  intros Hs Hd. unfold py_range.
  destruct (Z.eqb_spec s 0); [lia|].
  destruct (Z.ltb_spec 0 s); [|lia].
  do 3 f_equal.
  replace (s * d - 0 + s - 1) with (s - 1 + d * s) by lia.
  rewrite Z.div_add by lia. rewrite Z.div_small; lia.
Qed.

Lemma for_each_append {A B : Type} (l : list A) (f : A -> list B)
    (body : A -> list B -> outcome (list B)) (acc : list B) :
  (forall x acc, body x acc = Return (acc ++ f x)) ->
  for_each l body acc = Return (acc ++ (l ≫= f)).
Proof.
  intros Hb. revert acc. induction l as [|x l IH]; intros acc; cbn [for_each].
  - by rewrite app_nil_r.
  - rewrite Hb. cbn [mbind outcome_bind]. rewrite IH, bind_cons.
    by rewrite (assoc_L (++)).
Qed.

Lemma length_bind_const {A B : Type} (l : list A) (f : A -> list B)
    (m : nat) :
  (forall x, length (f x) = m) -> length (l ≫= f) = (length l * m)%nat.
Proof.
  intros Hf. induction l as [|x l IH]; [done|].
  rewrite bind_cons, length_app, Hf, IH. simpl. lia.
Qed.

(** The origins of the square sub-grids, row by row. *)
Lemma origins_grid (c : MultipleParallelSweep.self) (d : Z) :
  0 < MultipleParallelSweep.grid_size_each_drone c -> 0 <= d ->
  MultipleParallelSweep.grid_size c
  = MultipleParallelSweep.grid_size_each_drone c * d ->
  MultipleParallelSweep.n_drones c <> 2 ->
  MultipleParallelSweep.get_drones_initial_positions c
  = Return (seqZ 0 d ≫= fun i => seqZ 0 d ≫= fun j =>
            [(i * MultipleParallelSweep.grid_size_each_drone c,
              j * MultipleParallelSweep.grid_size_each_drone c)]).
Proof.
  destruct c as [env gs n s].
  unfold MultipleParallelSweep.get_drones_initial_positions.
  cbn [MultipleParallelSweep.grid_size_each_drone
       MultipleParallelSweep.n_drones MultipleParallelSweep.grid_size].
  intros Hs Hd -> Hn.
  destruct (Z.eqb_spec n 2); [contradiction|]. cbn [negb].
  rewrite py_range_multiples by assumption. cbn [mbind outcome_bind].
  rewrite (for_each_append _
             (fun i => ((fun k => 0 + k * s) <$> seqZ 0 d)
                       ≫= fun j => [(i, j)])).
  - rewrite app_nil_l, list_fmap_bind. f_equal.
    apply list_bind_ext; [|done]. intros i. cbn [compose].
    rewrite list_fmap_bind. by apply list_bind_ext.
  - intros i acc. cbn [mbind outcome_bind].
    by rewrite (for_each_append _ (fun j => [(i, j)])).
Qed.

Lemma origins_elem (s d : Z) (o : Z * Z) :
  o ∈ (seqZ 0 d ≫= fun i => seqZ 0 d ≫= fun j => [(i * s, j * s)]) <->
  exists i j, 0 <= i < d /\ 0 <= j < d /\ o = (i * s, j * s).
Proof.
  rewrite list_elem_of_bind. split.
  - intros (i & (j & Ho%list_elem_of_singleton & Hj%elem_of_seqZ)
                 %list_elem_of_bind & Hi%elem_of_seqZ).
    exists i, j. repeat split; try lia. exact Ho.
  - intros (i & j & Hi & Hj & ->). exists i. split.
    + apply list_elem_of_bind. exists j.
      split; [by apply list_elem_of_singleton | apply elem_of_seqZ; lia].
    + apply elem_of_seqZ. lia.
Qed.

(** X8.  When the sub-grid size is positive and times the divisor gives
    the grid size (2 for two agents, else the root of the agent count),
    [get_drones_initial_positions] returns one position per agent, no two
    of them equal. *)
Theorem one_origin_per_agent (c : MultipleParallelSweep.self) (d : Z) :
  0 < MultipleParallelSweep.grid_size_each_drone c ->
  MultipleParallelSweep.grid_size c
  = MultipleParallelSweep.grid_size_each_drone c * d ->
  (if MultipleParallelSweep.n_drones c =? 2 then d = 2
   else 0 <= d /\ d * d = MultipleParallelSweep.n_drones c) ->
  exists l,
    MultipleParallelSweep.get_drones_initial_positions c = Return l /\
    Z.of_nat (length l) = MultipleParallelSweep.n_drones c /\
    NoDup l.
Proof.
  intros Hs Hg Hd.
  destruct (Z.eqb_spec (MultipleParallelSweep.n_drones c) 2) as [E|E].
  - eexists. split.
    { unfold MultipleParallelSweep.get_drones_initial_positions.
      rewrite E. reflexivity. }
    split; [by rewrite E|].
    apply NoDup_cons. split; [|apply NoDup_singleton].
    intros [= H]%list_elem_of_singleton. lia.
  - destruct Hd as [Hd0 Hdd].
    rewrite (origins_grid c d Hs Hd0 Hg E). eexists. split; [reflexivity|].
    set (s := MultipleParallelSweep.grid_size_each_drone c) in *. split.
    + rewrite (length_bind_const _ _ (Z.to_nat d)), length_seqZ.
      * rewrite <- Hdd. lia.
      * intros i. rewrite (length_bind_const _ _ 1%nat), length_seqZ;
          [lia | done].
    + apply NoDup_bind; [| |apply NoDup_seqZ].
      * intros i1 i2 o _ _.
        intros (j1 & ->%list_elem_of_singleton & _)%list_elem_of_bind.
        intros (j2 & [= H1 H2]%list_elem_of_singleton & _)%list_elem_of_bind.
        nia.
      * intros i _. apply NoDup_bind; [| |apply NoDup_seqZ].
        -- intros j1 j2 o _ _ ->%list_elem_of_singleton
             [= H]%list_elem_of_singleton. nia.
        -- intros j _. apply NoDup_singleton.
Qed.

(** X9.  For an agent count other than 2, the square sub-grids that start
    at the initial positions tile the grid: every cell of the grid lies in
    the sub-grid of exactly one of the positions. *)
Theorem sub_grids_tile (c : MultipleParallelSweep.self) (d a b : Z) :
  0 < MultipleParallelSweep.grid_size_each_drone c -> 0 <= d ->
  MultipleParallelSweep.grid_size c
  = MultipleParallelSweep.grid_size_each_drone c * d ->
  MultipleParallelSweep.n_drones c <> 2 ->
  0 <= a < MultipleParallelSweep.grid_size c ->
  0 <= b < MultipleParallelSweep.grid_size c ->
  exists l o,
    MultipleParallelSweep.get_drones_initial_positions c = Return l /\
    o ∈ l /\
    (o.1 <= a < o.1 + MultipleParallelSweep.grid_size_each_drone c /\
     o.2 <= b < o.2 + MultipleParallelSweep.grid_size_each_drone c) /\
    forall o', o' ∈ l ->
      o'.1 <= a < o'.1 + MultipleParallelSweep.grid_size_each_drone c ->
      o'.2 <= b < o'.2 + MultipleParallelSweep.grid_size_each_drone c ->
      o' = o.
Proof.
  intros Hs Hd Hg Hn Ha Hb.
  rewrite (origins_grid c d Hs Hd Hg Hn).
  set (s := MultipleParallelSweep.grid_size_each_drone c) in *.
  rewrite Hg in Ha, Hb.
  pose proof (Z.div_mod a s ltac:(lia)) as Ea.
  pose proof (Z.mod_pos_bound a s Hs) as Ra.
  pose proof (Z.div_mod b s ltac:(lia)) as Eb.
  pose proof (Z.mod_pos_bound b s Hs) as Rb.
  eexists _, (a / s * s, b / s * s). split; [reflexivity|].
  split; [|split].
  - apply origins_elem. exists (a / s), (b / s).
    repeat split; try (apply Z.div_pos; lia);
      apply Z.div_lt_upper_bound; lia.
  - cbn [fst snd]. lia.
  - intros o' (i & j & Hi & Hj & ->)%origins_elem. cbn [fst snd].
    intros Hia Hjb. f_equal; f_equal.
    + apply (Z.div_unique_pos a s i (a - i * s)); lia.
    + apply (Z.div_unique_pos b s j (b - j * s)); lia.
Qed.

(** ** The coordinator's stream and [run] *)

Lemma take_running (c : MultipleParallelSweep.self) (k : nat)
    (g : generator) :
  MultipleParallelSweep.take c k (MultipleParallelSweep.running g)
  = Return ((fun a => MultipleParallelSweep.actions_of c (value a))
              <$> take k g).
Proof.
  revert g. induction k as [|k IH]; intros g; [reflexivity|].
  cbn [MultipleParallelSweep.take MultipleParallelSweep.resume take].
  unfold MultipleParallelSweep.pull, genarate_next_action_resume.
  destruct (resume g) as [[a|] g']; cbn [fmap option_fmap option_map];
    cbn [mbind outcome_bind fst snd]; [|reflexivity].
  rewrite IH. reflexivity.
Qed.

(** X10.  The stream of the coordinator is the stream of its reference
    planner, each action broadcast as its code: it raises nothing and has
    a tick for every action of the planner, no more. *)
Theorem coordinator_stream (c : MultipleParallelSweep.self) (k : nat) :
  exists p,
    SingleParallelSweep.__init__
      (MultipleParallelSweep.get_first_drone_info c) = Return p /\
    MultipleParallelSweep.take c k (MultipleParallelSweep.generate_next_action c)
    = Return ((fun a => MultipleParallelSweep.actions_of c (value a))
                <$> take k (generate_next_movement p)).
Proof.
  eexists. split; [apply init_built|].
  destruct k as [|k]; [reflexivity|].
  cbn [MultipleParallelSweep.take MultipleParallelSweep.resume
       MultipleParallelSweep.generate_next_action take].
  rewrite init_built. cbn [mbind outcome_bind].
  unfold MultipleParallelSweep.pull, genarate_next_action_resume.
  destruct (resume _) as [[a|] g']; cbn [fmap option_fmap option_map];
    cbn [mbind outcome_bind fst snd]; [|reflexivity].
  rewrite take_running. reflexivity.
Qed.

Section RunProperties.

Variable world : Type.
Variable reset : list (Z * Z) -> world -> world.
Variable step : gmap string Z -> world -> (gmap string bool * bool) * world.

Local Abbreviation Run := (MultipleParallelSweep.run world reset step).
Local Abbreviation Run_loop := (MultipleParallelSweep.run_loop world step).
Local Abbreviation Played := (MultipleParallelSweep.played world step).

Lemma run_loop_played (k fuel : nat) (c : MultipleParallelSweep.self)
    (g g' : MultipleParallelSweep.generator) (w w' : world)
    (info info' : option bool) :
  Played k c g w info = Some (g', w', info') ->
  Run_loop (k + fuel) c g w info = Run_loop fuel c g' w' info'.
Proof.
  revert g w info. induction k as [|k IH]; intros g w info; simpl.
  - by intros [= -> -> ->].
  - destruct (MultipleParallelSweep.resume c g) as [[[actions|] g1]|e];
      try discriminate.
    destruct (step actions w) as [[done found] w1].
    destruct (MultipleParallelSweep.any_done done); [discriminate|].
    apply IH.
Qed.

(** X11.  [run] stops at the first tick at which the environment reports
    some agent done, and returns the [Found] flag of that very tick; the
    environment is left as that tick left it. *)
Theorem run_stops_at_first_done (c : MultipleParallelSweep.self)
    (l : list (Z * Z)) (k fuel : nat) (w w' : world)
    (g' g'' : MultipleParallelSweep.generator) (info' : option bool)
    (actions : gmap string Z) :
  MultipleParallelSweep.get_drones_initial_positions c = Return l ->
  Played k c (MultipleParallelSweep.generate_next_action c) (reset l w) None
  = Some (g', w', info') ->
  MultipleParallelSweep.resume c g' = Return (Some actions, g'') ->
  MultipleParallelSweep.any_done (step actions w').1.1 = true ->
  Run (k + S fuel) c w
  = (MultipleParallelSweep.returned (step actions w').1.2,
     (step actions w').2).
Proof.
  intros Hl Hp Hr Hd. unfold MultipleParallelSweep.run. rewrite Hl.
  rewrite (run_loop_played _ _ _ _ _ _ _ _ _ Hp).
  cbn [MultipleParallelSweep.run_loop]. rewrite Hr.
  destruct (step actions w') as [[done found] w1]. simpl in *.
  by rewrite Hd.
Qed.

(** X12.  On sub-grids of a single cell (and an agent count other than 2)
    [run] makes exactly one step, with [search] for every agent, and
    returns the [Found] flag of that step, whether or not the environment
    reported an agent done. *)
Theorem run_single_cell (c : MultipleParallelSweep.self) (fuel : nat)
    (w : world) :
  MultipleParallelSweep.grid_size_each_drone c = 1 ->
  MultipleParallelSweep.n_drones c <> 2 ->
  0 <= MultipleParallelSweep.grid_size c ->
  exists l,
    MultipleParallelSweep.get_drones_initial_positions c = Return l /\
    let r := step (MultipleParallelSweep.actions_of c (value search))
                  (reset l w) in
    Run (S (S fuel)) c w = (MultipleParallelSweep.returned r.1.2, r.2).
Proof.
  intros Hs Hn Hg.
  assert (Hl := origins_grid c (MultipleParallelSweep.grid_size c)).
  rewrite Hs in Hl. specialize (Hl ltac:(lia) Hg ltac:(lia) Hn).
  eexists. split; [exact Hl|].
  unfold MultipleParallelSweep.run. rewrite Hl.
  cbn [MultipleParallelSweep.run_loop MultipleParallelSweep.resume
       MultipleParallelSweep.generate_next_action].
  rewrite init_built. cbn [mbind outcome_bind].
  unfold MultipleParallelSweep.get_first_drone_info.
  destruct (Z.eqb_spec (MultipleParallelSweep.n_drones c) 2);
    [contradiction|].
  rewrite Hs. cbn [negb].
  set (g1 := mkgen (mkself 1 0 0 (1 - 1) (1 - 1) (1 - 1) (1 - 1) false)
                   true turnaround_search).
  assert (E1 : MultipleParallelSweep.pull c
                 (generate_next_movement
                    (built (DroneInfo.mk 1 (0, 0) (1 - 1, 1 - 1))))
               = Return (Some (MultipleParallelSweep.actions_of c
                                 (value search)),
                         MultipleParallelSweep.running g1)) by reflexivity.
  assert (E2 : MultipleParallelSweep.resume c
                 (MultipleParallelSweep.running g1)
               = Return (None, MultipleParallelSweep.finished))
    by reflexivity.
  rewrite E1. cbv zeta.
  destruct (step _ _) as [[done found] w1]. cbn [fst snd].
  destruct (MultipleParallelSweep.any_done done); [reflexivity|].
  rewrite E2. reflexivity.
Qed.

(** X13.  A coordinator for a grid of size 0 (and an agent count other
    than 2) is constructed, with sub-grid size 0; its initial positions
    cannot be computed, for [range] refuses the step 0, and [run] raises
    that [ValueError] before it touches the environment. *)
Theorem empty_grid_run_raises (env : Env) (c : MultipleParallelSweep.self)
    (fuel : nat) (w : world) :
  env_grid_size env = 0 ->
  MultipleParallelSweep.__init__ env = Return c ->
  MultipleParallelSweep.n_drones c <> 2 ->
  MultipleParallelSweep.grid_size_each_drone c = 0 /\
  MultipleParallelSweep.get_drones_initial_positions c
  = Raise (ValueError "range() arg 3 must not be zero") /\
  Run fuel c w
  = (MultipleParallelSweep.raised
       (ValueError "range() arg 3 must not be zero"), w).
Proof.
  intros Hg Hc Hn.
  assert (Hs : MultipleParallelSweep.grid_size_each_drone c = 0).
  { revert Hc Hn. unfold MultipleParallelSweep.__init__,
      MultipleParallelSweep.get_each_drone_grid_size.
    rewrite Hg. set (n := Z.of_nat _).
    destruct (negb _ && negb _); [discriminate|].
    destruct (Z.eqb_spec n 2) as [E|E].
    { cbn. intros [= <-]. cbn. congruence. }
    destruct (math_sqrt n) as [[sx|sx| |sx mx ex]|e]; cbn;
      try discriminate; by intros [= <-]. }
  assert (Hp : MultipleParallelSweep.get_drones_initial_positions c
               = Raise (ValueError "range() arg 3 must not be zero")).
  { unfold MultipleParallelSweep.get_drones_initial_positions.
    destruct (Z.eqb_spec (MultipleParallelSweep.n_drones c) 2);
      [contradiction|].
    rewrite Hs. reflexivity. }
  split; [exact Hs|]. split; [exact Hp|].
  unfold MultipleParallelSweep.run. by rewrite Hp.
Qed.

End RunProperties.

(** ** Concrete runs of the further properties *)

Lemma one_origin_per_agent_witness :
  exists l,
    MultipleParallelSweep.get_drones_initial_positions
      (MultipleParallelSweep.mkself
         (mkEnv 8 ["drone0"; "drone1"; "drone2"; "drone3"]) 8 4 4)
    = Return l /\
    Z.of_nat (length l) = 4 /\ NoDup l.
Proof.
  apply (one_origin_per_agent
           (MultipleParallelSweep.mkself
              (mkEnv 8 ["drone0"; "drone1"; "drone2"; "drone3"]) 8 4 4) 2);
    simpl; lia.
Defined.

Lemma sub_grids_tile_witness :
  exists l o,
    MultipleParallelSweep.get_drones_initial_positions
      (MultipleParallelSweep.mkself
         (mkEnv 8 ["drone0"; "drone1"; "drone2"; "drone3"]) 8 4 4)
    = Return l /\
    o ∈ l /\
    (o.1 <= 5 < o.1 + 4 /\ o.2 <= 2 < o.2 + 4) /\
    forall o', o' ∈ l ->
      o'.1 <= 5 < o'.1 + 4 -> o'.2 <= 2 < o'.2 + 4 -> o' = o.
Proof.
  apply (sub_grids_tile
           (MultipleParallelSweep.mkself
              (mkEnv 8 ["drone0"; "drone1"; "drone2"; "drone3"]) 8 4 4)
           2 5 2); simpl; lia.
Defined.

Lemma run_stops_at_first_done_witness :
  exists r,
    MultipleParallelSweep.run nat counting_reset counting_step 3
      (MultipleParallelSweep.mkself (mkEnv 4 ["drone0"]) 4 1 4) 7%nat = r /\
    r = (MultipleParallelSweep.returned true, 3%nat).
Proof.
  eexists. split.
  - eapply (run_stops_at_first_done nat counting_reset counting_step
              (MultipleParallelSweep.mkself (mkEnv 4 ["drone0"]) 4 1 4)
              _ 2 0 7%nat).
    + vm_compute. reflexivity.
    + vm_compute. reflexivity.
    + vm_compute. reflexivity.
    + vm_compute. reflexivity.
  - vm_compute. reflexivity.
Defined.

Lemma run_single_cell_witness :
  exists l,
    MultipleParallelSweep.get_drones_initial_positions
      (MultipleParallelSweep.mkself
         (mkEnv 2 ["drone0"; "drone1"; "drone2"; "drone3"]) 2 4 1)
    = Return l /\
    MultipleParallelSweep.run nat counting_reset counting_step 2
      (MultipleParallelSweep.mkself
         (mkEnv 2 ["drone0"; "drone1"; "drone2"; "drone3"]) 2 4 1) 7%nat
    = (MultipleParallelSweep.returned false, 1%nat).
Proof.
  destruct (run_single_cell nat counting_reset counting_step
              (MultipleParallelSweep.mkself
                 (mkEnv 2 ["drone0"; "drone1"; "drone2"; "drone3"]) 2 4 1)
              0 7%nat eq_refl ltac:(discriminate) ltac:(simpl; lia))
    as (l & Hl & Hr).
  exists l. split; [exact Hl|]. exact Hr.
Defined.

Lemma empty_grid_run_raises_witness :
  MultipleParallelSweep.run nat counting_reset counting_step 5
    (MultipleParallelSweep.mkself (mkEnv 0 ["drone0"]) 0 1 0) 7%nat
  = (MultipleParallelSweep.raised
       (ValueError "range() arg 3 must not be zero"), 7%nat).
Proof.
  apply (empty_grid_run_raises nat counting_reset counting_step
           (mkEnv 0 ["drone0"])
           (MultipleParallelSweep.mkself (mkEnv 0 ["drone0"]) 0 1 0) 5 7%nat
           eq_refl).
  - vm_compute. reflexivity.
  - discriminate.
Defined.

(** ** Grids of one column or less *)

Lemma narrow_frame (s : self) (k : nat) :
  grid_size s <= 1 -> drone_x s = 0 -> drone_y s = 0 ->
  is_going_down s = true -> end_position s <> (0, 0) ->
  advance (2 * k + 1) (generate_next_movement s)
  = mkgen (set_drone_y s (Z.of_nat k)) true (loop_search true).
Proof.
  destruct s as [gs x y lx ly ex ey ph]. unfold end_position.
  cbn [grid_size drone_x drone_y is_going_down end_position_x
       end_position_y].
  intros Hg -> -> -> He.
  assert (E0 : resume (generate_next_movement
                         (mkself gs 0 0 lx ly ex ey true))
               = (Some search,
                  mkgen (mkself gs 0 0 lx ly ex ey true) true
                        (loop_search true))).
  { unfold generate_next_movement, resume, check_if_done, loop_top.
    cbn [this suspended is_going_right drone_x drone_y end_position_x
         end_position_y is_going_down].
    destruct (Z.eqb_spec 0 ex), (Z.eqb_spec 0 ey); simpl;
      try reflexivity. congruence. }
  induction k as [|k IH].
  - change (2 * 0 + 1)%nat with 1%nat. cbn [advance]. by rewrite E0.
  - replace (2 * S k + 1)%nat with (S (S (2 * k + 1))) by lia.
    rewrite !advance_succ, IH.
    unfold resume, check_if_done, loop_top, set_drone_y; simpl.
    destruct (Z.eqb_spec (Z.of_nat k + 1) (gs - 1)); [lia|].
    simpl. do 3 f_equal. lia.
Qed.

(** X14.  A planner whose grid size is 1 or less, and which does not
    start on its end position, never meets a column boundary: it yields
    [search] and [right] in turn for ever and stands in column [k] after
    [2k+1] actions.  The non-positive grid sizes, which the construction
    accepts, and the reference planner of two agents on a [2×2] grid are of
    this kind. *)
Theorem narrow_grid_runs_right (d : DroneInfo.t) (k : nat) :
  DroneInfo.grid_size d <= 1 ->
  DroneInfo.initial_position d = (0, 0) ->
  exists p, SingleParallelSweep.__init__ d = Return p /\
    (end_position p <> (0, 0) ->
     let g := generate_next_movement p in
     take (2 * k + 2) g !! (2 * k)%nat = Some search /\
     take (2 * k + 2) g !! (2 * k + 1)%nat = Some right /\
     position (advance (2 * k + 1) g) = (0, Z.of_nat k)).
Proof.
  intros Hg Hi. exists (built d). split; [apply init_built|].
  intros He g.
  assert (Hf := narrow_frame (built d) k).
  destruct d as [gs [x y] [lx ly]].
  cbn [DroneInfo.grid_size DroneInfo.initial_position] in *.
  injection Hi as -> ->.
  specialize (Hf Hg eq_refl eq_refl eq_refl He). fold g in Hf.
  split; [|split].
  - apply take_lookup_2; [lia|].
    apply (resume_to_search _ true).
    rewrite <- advance_succ. replace (S (2 * k)) with (2 * k + 1)%nat by lia.
    by rewrite Hf.
  - apply take_lookup_2; [lia|]. by rewrite Hf.
  - by rewrite Hf.
Qed.

Lemma narrow_grid_runs_right_witness :
  exists p, SingleParallelSweep.__init__ (DroneInfo.mk 0 (0, 0) (-1, -1))
            = Return p /\
    position (advance (2 * 5 + 1) (generate_next_movement p)) = (0, 5).
Proof.
  destruct (narrow_grid_runs_right (DroneInfo.mk 0 (0, 0) (-1, -1)) 5
              ltac:(simpl; lia) eq_refl) as (p & Hp & H).
  exists p. split; [exact Hp|].
  apply H. injection Hp as <-. discriminate.
Defined.
